(** * The explainable matching engine (matching_engine.py)

    A shallow embedding of [ExplainableMatchingEngine] and the statements of
    its specification.

    Conventions of the embedding.
    - Python floats and ints are exact rationals ([Q]); [round(x, n)] is
      rounding half to even on the n-th decimal. The rationals idealise the
      doubles of the source: where a double is off the exact value, a score
      the source returns can differ from the one computed here in its last
      decimal, and a comparison with a threshold can go the other way.
    - The SQLAlchemy session is a record of tables (lists of rows, in the
      order the database returns them); [.first()] is the first row that
      passes the filter, [.all()] all of them.
    - An exception is a value of [exn]; a method that can raise returns a
      [result]. The constructors are the classes that are raised; pydantic's
      ValidationError derives from ValueError, and [is_ValueError] tells what
      an [except ValueError] clause catches.
    - A global name of the module is looked up when the expression that
      mentions it is evaluated, as Python does. The names bound by the import
      statements of matching_engine.py are in [module_globals] and are read as
      their definitions; the lookup of a name that no import binds is written
      out, against [module_globals] and the extra names the methods take as
      an argument, so that what depends on such a binding is visible in the
      statements.
    - [time.time()] and the [processing_time_ms] entries are left out. *)

From Stdlib Require Import List String Ascii ZArith QArith Qround Qminmax Qabs Lia Lqa Bool.
From Stdlib Require Import Sorted Permutation DecimalString.
Import ListNotations.

Local Open Scope Z_scope.
Local Open Scope Q_scope.
Local Open Scope string_scope.

(** ** Exceptions *)

Inductive exn : Type :=
| NameError (name : string)
| ValueError (msg : string)
| ZeroDivisionError (msg : string)
| ValidationError (msg : string).

Inductive result (A : Type) : Type :=
| OK (a : A)
| Raise (e : exn).
Arguments OK {A} a.
Arguments Raise {A} e.

Definition bind {A B : Type} (m : result A) (k : A -> result B) : result B :=
  match m with
  | OK a => k a
  | Raise e => Raise e
  end.

Notation "x <- m ;; k" := (bind m (fun x => k))
  (at level 61, m at next level, right associativity).
Notation "m ;;; k" := (bind m (fun _ => k))
  (at level 61, right associativity).

(** ** Numbers *)

Definition Qltb (a b : Q) : bool := negb (Qle_bool b a).
Definition Qgeb (a b : Q) : bool := Qle_bool b a.
Definition Qgtb (a b : Q) : bool := negb (Qle_bool a b).

(** Python's [min(a, b)]: [b] when [b < a], else [a]. *)
Definition py_min (a b : Q) : Q := if Qltb b a then b else a.

(** Nearest integer, ties to the even one. *)
Definition round_half_even (q : Q) : Z :=
  let f := Qfloor q in
  let r := q - inject_Z f in
  if Qltb r (1 # 2) then f
  else if Qltb (1 # 2) r then (f + 1)%Z
  else if Z.even f then f else (f + 1)%Z.

Definition pow10 (n : nat) : Z := Z.pow 10 (Z.of_nat n).

(** [round(q, n)] *)
Definition round (q : Q) (ndigits : nat) : Q :=
  Qred (Qmake (round_half_even (q * inject_Z (pow10 ndigits)))
              (Z.to_pos (pow10 ndigits))).

Definition Qsum (l : list Q) : Q := fold_right Qplus 0 l.

(** [np.mean] of a list. *)
Definition np_mean (l : list Q) : Q := Qsum l / inject_Z (Z.of_nat (List.length l)).

(** [np.average(a, weights=w)]: numpy refuses weights that sum to zero. *)
Definition np_average (a w : list Q) : result Q :=
  let scl := Qsum w in
  if Qeq_bool scl 0
  then Raise (ZeroDivisionError "Weights sum to zero, can't be normalized")
  else OK (Qsum (map (fun p => fst p * snd p) (combine a w)) / scl).

(** ** Text *)

Definition str_of_Z (z : Z) : string := NilZero.string_of_int (Z.to_int z).

Fixpoint pad_zeros (n : nat) (s : string) : string :=
  match n with
  | O => s
  | S n' => if Nat.ltb (String.length s) n then pad_zeros n' ("0" ++ s) else s
  end.

(** [f"{q:.Nf}"]: sign, integer part and N decimals of the rounded magnitude. *)
Definition format_f (ndigits : nat) (q : Q) : string :=
  let neg := Qltb q 0 in
  let m := round_half_even (Qabs q * inject_Z (pow10 ndigits)) in
  let ip := (m / pow10 ndigits)%Z in
  let fp := (m mod pow10 ndigits)%Z in
  (if neg then "-" else "") ++ str_of_Z ip ++
  match ndigits with
  | O => ""
  | _ => "." ++ pad_zeros ndigits (str_of_Z fp)
  end.

(** ** Python dicts with string keys, in insertion order *)

Section Dict.
Context {V : Type}.

Definition dict := list (string * V).

Fixpoint dict_get (d : dict) (k : string) : option V :=
  match d with
  | [] => None
  | (k', v) :: d' => if String.eqb k k' then Some v else dict_get d' k
  end.

(** [d.get(k, default)] *)
Definition dict_get_default (d : dict) (k : string) (default : V) : V :=
  match dict_get d k with
  | Some v => v
  | None => default
  end.

(** [d[k] = v]: an existing key keeps its place. *)
Fixpoint dict_set (d : dict) (k : string) (v : V) : dict :=
  match d with
  | [] => [(k, v)]
  | (k', v') :: d' =>
      if String.eqb k k' then (k', v) :: d' else (k', v') :: dict_set d' k v
  end.

Definition dict_values (d : dict) : list V := map snd d.
End Dict.
Arguments dict V : clear implicits.

(** ** models.py *)

Definition UUID := N.

Inductive Gender := MALE | FEMALE | NON_BINARY | PREFER_NOT_TO_SAY.

Inductive Ethnicity :=
  ASIAN | BLACK | HISPANIC | CAUCASIAN | SOUTH_ASIAN | EAST_ASIAN | OTHER.

Inductive SocioeconomicStatus := LOW | MEDIUM | HIGH.

(** The [.value] of an enum member. *)
Definition Gender_value (g : Gender) : string :=
  match g with
  | MALE => "male"
  | FEMALE => "female"
  | NON_BINARY => "non_binary"
  | PREFER_NOT_TO_SAY => "prefer_not_to_say"
  end.

Definition SocioeconomicStatus_value (s : SocioeconomicStatus) : string :=
  match s with
  | LOW => "low"
  | MEDIUM => "medium"
  | HIGH => "high"
  end.

Record Skill := {
  skill_id : UUID;
  skill_name : string;
  skill_category : string
}.

Record Candidate := {
  candidate_id : UUID;
  gender : option Gender;
  ethnicity : option Ethnicity;
  socioeconomic_status : option SocioeconomicStatus;
  years_experience : Z;
  is_active : bool
}.

(** A row of [candidate_skill_details]. *)
Record CandidateSkill := {
  cs_candidate_id : UUID;
  cs_skill_id : UUID;
  proficiency_level : Z
}.

(** A row of the association table [project_skills]. *)
Record project_skills_row := {
  ps_project_id : UUID;
  ps_skill_id : UUID;
  required_level : Z;
  weight : Q
}.

(** The JSON column [Project.fairness_config]: a dict that may lack keys. *)
Record fairness_json := {
  j_demographic_parity_threshold : option Q;
  j_equal_opportunity_weight : option Q;
  j_socioeconomic_boost : option bool;
  j_gender_parity : option bool;
  j_blind_screening : option bool
}.

(** [required_skills] is the relationship through [project_skills], as the
    ORM has loaded it. *)
Record Project := {
  project_id : UUID;
  weights_config : dict Q;
  fairness_config : fairness_json;
  required_skills : list Skill
}.

(** What the session reads: the tables the engine queries. *)
Record Session := {
  skills : list Skill;
  candidate_skill_details : list CandidateSkill;
  project_skills : list project_skills_row;
  projects : list Project;
  candidates : list Candidate
}.

(** ** schemas.py *)

Record FairnessConfig := {
  demographic_parity_threshold : Q;
  equal_opportunity_weight : Q;
  socioeconomic_boost : bool;
  gender_parity : bool;
  blind_screening : bool
}.

Definition in_unit_interval (q : Q) : bool := Qle_bool 0 q && Qle_bool q 1.

(** [FairnessConfig] built from the keywords of a dict: defaults for absent
    keys, [ge=0, le=1] on the two floats. *)
Definition FairnessConfig_of_json (d : fairness_json) : result FairnessConfig :=
  let dpt := match j_demographic_parity_threshold d with Some q => q | None => 8 # 10 end in
  let eow := match j_equal_opportunity_weight d with Some q => q | None => 75 # 100 end in
  if in_unit_interval dpt && in_unit_interval eow then
    OK {| demographic_parity_threshold := dpt;
          equal_opportunity_weight := eow;
          socioeconomic_boost :=
            match j_socioeconomic_boost d with Some b => b | None => true end;
          gender_parity :=
            match j_gender_parity d with Some b => b | None => true end;
          blind_screening :=
            match j_blind_screening d with Some b => b | None => false end |}
  else Raise (ValidationError "FairnessConfig").

Record SkillGap := {
  skill : string;
  required : Z;
  actual : Z;
  gap : Z
}.

Record ExplanationItem := {
  type : string;
  category : string;
  detail : string;
  impact : string
}.

(** The dict [calculate_match] returns. *)
Record MatchData := {
  raw_score : Q;
  final_score : Q;
  fairness_adjustment : Z;
  technical_score : Q;
  communication_score : Q;
  leadership_score : Q;
  experience_score : Q;
  skill_gaps : list SkillGap;
  explanations : list ExplanationItem;
  bias_mitigation_applied : list string
}.

Record MatchResult := {
  mr_candidate_id : UUID;
  mr_project_id : UUID;
  mr_raw_score : Q;
  mr_final_score : Q;
  mr_fairness_adjustment : Z;
  mr_technical_score : Q;
  mr_communication_score : Q;
  mr_leadership_score : Q;
  mr_experience_score : Q;
  mr_skill_gaps : list SkillGap;
  mr_explanations : list ExplanationItem;
  mr_bias_mitigation_applied : list string;
  rank : option Z;
  algorithm_version : string
}.

Definition set_rank (m : MatchResult) (r : Z) : MatchResult :=
  {| mr_candidate_id := mr_candidate_id m;
     mr_project_id := mr_project_id m;
     mr_raw_score := mr_raw_score m;
     mr_final_score := mr_final_score m;
     mr_fairness_adjustment := mr_fairness_adjustment m;
     mr_technical_score := mr_technical_score m;
     mr_communication_score := mr_communication_score m;
     mr_leadership_score := mr_leadership_score m;
     mr_experience_score := mr_experience_score m;
     mr_skill_gaps := mr_skill_gaps m;
     mr_explanations := mr_explanations m;
     mr_bias_mitigation_applied := mr_bias_mitigation_applied m;
     rank := Some r;
     algorithm_version := algorithm_version m |}.

(** The dict [run_matching] returns. *)
Record MatchingRun := {
  run_project_id : UUID;
  total_candidates : nat;
  matches : list MatchResult;
  fairness_metrics : dict Q
}.

(** ** Python built-ins *)

(** [sorted(l, key=key, reverse=True)]: descending by key, equal keys in the
    order of [l]. *)
Fixpoint insert_reverse {A : Type} (key : A -> Q) (x : A) (l : list A) : list A :=
  match l with
  | [] => [x]
  | y :: l' =>
      if Qle_bool (key y) (key x) then x :: y :: l'
      else y :: insert_reverse key x l'
  end.

Definition sorted_reverse {A : Type} (key : A -> Q) (l : list A) : list A :=
  fold_right (insert_reverse key) [] l.

(** [enumerate(l, start)] *)
Fixpoint enumerate {A : Type} (l : list A) (start : Z) : list (Z * A) :=
  match l with
  | [] => []
  | x :: l' => (start, x) :: enumerate l' (start + 1)%Z
  end.

(** [max(l)] and [min(l)] of a non-empty list (0 stands for the error on []). *)
Definition list_max (l : list Q) : Q :=
  match l with
  | [] => 0
  | x :: l' => fold_left (fun m y => if Qltb m y then y else m) l' x
  end.

Definition list_min (l : list Q) : Q :=
  match l with
  | [] => 0
  | x :: l' => fold_left (fun m y => if Qltb y m then y else m) l' x
  end.

(** ** The module namespace *)

(** What the import statements at the head of matching_engine.py, and its
    class statement, bind. *)
Definition module_globals : list string :=
  ["np"; "List"; "Dict"; "Tuple"; "Any";
   "Candidate"; "Project"; "MatchResult"; "CandidateSkill";
   "SkillGap"; "ExplanationItem"; "FairnessConfig";
   "Session"; "time"; "datetime"; "ExplainableMatchingEngine"].

(** Reading a global name, in a namespace that holds [module_globals] and the
    names of [extra]. *)
Definition load_global (extra : list string) (name : string) : result unit :=
  if existsb (String.eqb name) (module_globals ++ extra)%list then OK tt
  else Raise (NameError name).

(** ** matching_engine.py: class ExplainableMatchingEngine *)

Definition VERSION : string := "2.0.0".

Section Engine.

(** The names bound in the module besides [module_globals] (none in the file
    as it is written), and [self.db]. *)
Variable extra_globals : list string.
Variable db : Session.

(** [np.std]: numpy's population standard deviation. *)
Variable np_std : list Q -> Q.

(** [query(CandidateSkill).filter(candidate_id == cid, skill_id == sid).first()] *)
Definition first_CandidateSkill (cid sid : UUID) : option CandidateSkill :=
  find (fun r => N.eqb (cs_candidate_id r) cid && N.eqb (cs_skill_id r) sid)
       (candidate_skill_details db).

(** [query(project_skills).filter(project_id == pid, skill_id == sid).first()] *)
Definition first_project_skills (pid sid : UUID) : option project_skills_row :=
  find (fun r => N.eqb (ps_project_id r) pid && N.eqb (ps_skill_id r) sid)
       (project_skills db).

(** Is there a row of [skills] with this id and this name: the join on [Skill.id]
    filtered on [Skill.name]. *)
Definition joins_Skill_named (sid : UUID) (name : string) : bool :=
  existsb (fun s => N.eqb sid (skill_id s) && String.eqb (skill_name s) name)
          (skills db).

(** [query(project_skills).join(Skill, skill_id == Skill.id)
      .filter(project_id == pid, Skill.name == name).first()] *)
Definition first_project_skills_named (pid : UUID) (name : string)
  : result (option project_skills_row) :=
  load_global extra_globals "Skill" ;;;
  OK (find (fun r => N.eqb (ps_project_id r) pid
                     && joins_Skill_named (ps_skill_id r) name)
           (project_skills db)).

(** [query(CandidateSkill).join(Skill, skill_id == Skill.id)
      .filter(candidate_id == cid, Skill.name == name).first()] *)
Definition first_CandidateSkill_named (cid : UUID) (name : string)
  : result (option CandidateSkill) :=
  load_global extra_globals "Skill" ;;;
  OK (find (fun r => N.eqb (cs_candidate_id r) cid
                     && joins_Skill_named (cs_skill_id r) name)
           (candidate_skill_details db)).

Definition _build_candidate_vector (candidate : Candidate) (project : Project)
  : dict Z :=
  fold_left
    (fun vector skill_req =>
       let proficiency :=
         first_CandidateSkill (candidate_id candidate) (skill_id skill_req) in
       dict_set vector (skill_name skill_req)
         match proficiency with
         | Some p => proficiency_level p
         | None => 0%Z
         end)
    (required_skills project) [].

Definition _build_requirement_vector (project : Project) : dict Z :=
  fold_left
    (fun vector skill =>
       let req_level := first_project_skills (project_id project) (skill_id skill) in
       dict_set vector (skill_name skill)
         match req_level with
         | Some r => required_level r
         | None => 80%Z
         end)
    (required_skills project) [].

(** The normalized score of one skill. *)
Definition skill_score (actual_level required_level : Z) : Q :=
  if Z.ltb 0 required_level then
    py_min 100 ((inject_Z actual_level / inject_Z required_level) * 100)
  else if Z.ltb 0 actual_level then 100 else 0.

(** The loop of [_calculate_technical_score] over [required_vector.items()]. *)
Fixpoint technical_loop (candidate_vector : dict Z) (project : Project)
    (items : list (string * Z)) (scores weights : list Q)
  : result (list Q * list Q) :=
  match items with
  | [] => OK (scores, weights)
  | (name, required_level) :: rest =>
      let actual_level := dict_get_default candidate_vector name 0%Z in
      skill_record <- first_project_skills_named (project_id project) name ;;
      let weight :=
        match skill_record with
        | Some r => weight r
        | None => 1
        end in
      let score := skill_score actual_level required_level in
      technical_loop candidate_vector project rest
        (scores ++ [score])%list (weights ++ [weight])%list
  end.

Definition _calculate_technical_score (candidate_vector required_vector : dict Z)
    (project : Project) : result Q :=
  sw <- technical_loop candidate_vector project required_vector [] [] ;;
  match fst sw with
  | [] => OK 0
  | _ => np_average (fst sw) (snd sw)
  end.

Definition _get_skill_score (candidate : Candidate) (name : string) : result Q :=
  skill_record <- first_CandidateSkill_named (candidate_id candidate) name ;;
  OK match skill_record with
     | Some r => inject_Z (proficiency_level r)
     | None => 0
     end.

Definition _apply_fairness_constraints (candidate : Candidate) (raw_score : Q)
    (config : FairnessConfig) : Z * list string :=
  let bonus := 0%Z in
  let mitigations := @nil string in
  (* Socioeconomic boost *)
  let '(bonus, mitigations) :=
    match socioeconomic_boost config, socioeconomic_status candidate with
    | true, Some ses =>
        if String.eqb (SocioeconomicStatus_value ses) "low" then
          ((bonus + 3)%Z,
           (mitigations ++
            [("Socioeconomic opportunity boost applied (+3%) for candidate from "
              ++ SocioeconomicStatus_value ses ++ " SES background")%string])%list)
        else (bonus, mitigations)
    | _, _ => (bonus, mitigations)
    end in
  (* Gender parity adjustment *)
  let '(bonus, mitigations) :=
    match gender_parity config, gender candidate with
    | true, Some g =>
        if existsb (String.eqb (Gender_value g)) ["female"; "non_binary"] then
          ((bonus + 2)%Z,
           (mitigations ++
            [("Gender parity adjustment (+2%) applied to promote diversity in "
              ++ Gender_value g ++ " representation")%string])%list)
        else (bonus, mitigations)
    | _, _ => (bonus, mitigations)
    end in
  (* Experience normalization *)
  if Z.ltb (years_experience candidate) 3 && Qgtb raw_score 70 then
    ((bonus + 1)%Z,
     (mitigations ++
      ["Early career potential boost (+1%) for high-performing junior candidate"])%list)
  else (bonus, mitigations).

(** The loop of [_calculate_skill_gaps] over [project.required_skills]. *)
Definition gaps_loop (candidate : Candidate) (project : Project) : list SkillGap :=
  fold_left
    (fun gaps s =>
       let required := first_project_skills (project_id project) (skill_id s) in
       let required_level :=
         match required with Some r => required_level r | None => 80%Z end in
       let actual := first_CandidateSkill (candidate_id candidate) (skill_id s) in
       let actual_level :=
         match actual with Some a => proficiency_level a | None => 0%Z end in
       if Z.ltb actual_level required_level then
         (gaps ++ [{| skill := skill_name s;
                      required := required_level;
                      actual := actual_level;
                      gap := (required_level - actual_level)%Z |}])%list
       else gaps)
    (required_skills project) [].

Definition _calculate_skill_gaps (candidate : Candidate) (project : Project)
  : list SkillGap :=
  sorted_reverse (fun x => inject_Z (gap x)) (gaps_loop candidate project).

Definition _generate_explanations (candidate : Candidate)
    (technical communication leadership experience : Q)
    (gaps : list SkillGap) (fairness_bonus : Z) (mitigations : list string)
  : list ExplanationItem :=
  let explanations := @nil ExplanationItem in
  (* Technical competency analysis *)
  let explanations :=
    if Qgeb technical 85 then
      (explanations ++
       [{| type := "strength";
           category := "Technical Excellence";
           detail := ("Exceptional technical alignment (" ++ format_f 1 technical
                      ++ "%) with project requirements. "
                      ++ "Candidate demonstrates mastery in key areas.")%string;
           impact := "High" |}])%list
    else if Qgeb technical 70 then
      (explanations ++
       [{| type := "neutral";
           category := "Technical Competency";
           detail := ("Solid technical foundation (" ++ format_f 1 technical
                      ++ "%) meets project needs.")%string;
           impact := "Medium" |}])%list
    else
      (explanations ++
       [{| type := "weakness";
           category := "Technical Gap";
           detail := ("Technical skills (" ++ format_f 1 technical
                      ++ "%) below optimal threshold. "
                      ++ "Consider upskilling program.")%string;
           impact := "Medium" |}])%list in
  (* Soft skills *)
  let explanations :=
    if Qgeb communication 85 then
      (explanations ++
       [{| type := "strength";
           category := "Communication";
           detail := "Outstanding communication skills indicate strong team collaboration potential.";
           impact := "High" |}])%list
    else explanations in
  let explanations :=
    if Qgeb leadership 80 then
      (explanations ++
       [{| type := "strength";
           category := "Leadership";
           detail := "Demonstrated leadership capability suitable for mentoring or team lead roles.";
           impact := "Medium" |}])%list
    else explanations in
  (* Skill gaps *)
  let explanations :=
    match gaps with
    | top_gap :: _ =>
        (explanations ++
         [{| type := "gap";
             category := "Development Opportunity";
             detail := ("Primary gap in " ++ skill top_gap ++ ": "
                        ++ str_of_Z (actual top_gap) ++ "/"
                        ++ str_of_Z (required top_gap) ++ " required. "
                        ++ "Recommended focus area for growth.")%string;
             impact := "Low" |}])%list
    | [] => explanations
    end in
  (* Fairness adjustments *)
  let explanations :=
    if Z.ltb 0 fairness_bonus then
      (explanations ++
       [{| type := "fairness";
           category := "Equity Adjustment";
           detail := ("Applied " ++ format_f 0 (inject_Z fairness_bonus)
                      ++ "% fairness adjustment to ensure "
                      ++ "demographic parity and equal opportunity.")%string;
           impact := "Adjustment" |}])%list
    else explanations in
  (* Experience context *)
  if Z.leb 5 (years_experience candidate) then
    (explanations ++
     [{| type := "strength";
         category := "Experience";
         detail := (str_of_Z (years_experience candidate)
                    ++ " years of industry experience "
                    ++ "brings valuable domain expertise.")%string;
         impact := "Medium" |}])%list
  else explanations.

(** [custom_weights or project.weights_config]: an empty dict is falsy. *)
Definition weights_in_use (custom_weights : option (dict Q)) (project : Project)
  : dict Q :=
  match custom_weights with
  | Some ((_ :: _) as w) => w
  | _ => weights_config project
  end.

Definition calculate_match (candidate : Candidate) (project : Project)
    (custom_weights : option (dict Q)) (custom_fairness : option FairnessConfig)
  : result MatchData :=
  (* Use project configs or overrides *)
  let weights := weights_in_use custom_weights project in
  fairness <- match custom_fairness with
              | Some f => OK f
              | None => FairnessConfig_of_json (fairness_config project)
              end ;;
  (* Build skill vectors *)
  let candidate_vector := _build_candidate_vector candidate project in
  let required_vector := _build_requirement_vector project in
  (* Calculate component scores *)
  technical <- _calculate_technical_score candidate_vector required_vector project ;;
  communication <- _get_skill_score candidate "Communication" ;;
  leadership <- _get_skill_score candidate "Leadership" ;;
  let experience := py_min 100 (inject_Z (years_experience candidate * 15)) in
  (* Weighted raw score *)
  let raw :=
    technical * dict_get_default weights "technical" (6 # 10) +
    communication * dict_get_default weights "communication" (2 # 10) +
    leadership * dict_get_default weights "leadership" (1 # 10) +
    experience * dict_get_default weights "experience" (1 # 10) in
  (* Fairness adjustments *)
  let '(fairness_bonus, bias_mitigations) :=
    _apply_fairness_constraints candidate raw fairness in
  let final := py_min 100 (raw + inject_Z fairness_bonus) in
  (* Generate explanations *)
  let gaps := _calculate_skill_gaps candidate project in
  let expl :=
    _generate_explanations candidate technical communication leadership
      experience gaps fairness_bonus bias_mitigations in
  OK {| raw_score := round raw 2;
        final_score := round final 2;
        fairness_adjustment := fairness_bonus;
        technical_score := round technical 2;
        communication_score := round communication 2;
        leadership_score := round leadership 2;
        experience_score := round experience 2;
        skill_gaps := gaps;
        explanations := expl;
        bias_mitigation_applied := bias_mitigations |}.

(** [MatchResult(candidate_id=..., ..., algorithm_version=self.VERSION)] *)
Definition new_MatchResult (candidate : Candidate) (project : Project)
    (match_data : MatchData) : MatchResult :=
  {| mr_candidate_id := candidate_id candidate;
     mr_project_id := project_id project;
     mr_raw_score := raw_score match_data;
     mr_final_score := final_score match_data;
     mr_fairness_adjustment := fairness_adjustment match_data;
     mr_technical_score := technical_score match_data;
     mr_communication_score := communication_score match_data;
     mr_leadership_score := leadership_score match_data;
     mr_experience_score := experience_score match_data;
     mr_skill_gaps := skill_gaps match_data;
     mr_explanations := explanations match_data;
     mr_bias_mitigation_applied := bias_mitigation_applied match_data;
     rank := None;
     algorithm_version := VERSION |}.

Definition scored := (Candidate * MatchResult * MatchData)%type.

(** The scoring loop of [run_matching] over [candidates]. *)
Fixpoint matching_loop (project : Project) (fairness_override : option FairnessConfig)
    (cands : list Candidate) (results : list scored) : result (list scored) :=
  match cands with
  | [] => OK results
  | candidate :: rest =>
      match_data <- calculate_match candidate project None fairness_override ;;
      let match_result := new_MatchResult candidate project match_data in
      matching_loop project fairness_override rest
        (results ++ [(candidate, match_result, match_data)])%list
  end.

(** [results.sort(key=lambda x: x[1].final_score, reverse=True)], then the
    loop that writes [match.rank]. *)
Definition rank_results (results : list scored) : list scored :=
  let results :=
    sorted_reverse (fun x : scored => mr_final_score (snd (fst x))) results in
  map (fun rx : Z * scored =>
         let '(r, (candidate, m, d)) := rx in (candidate, set_rank m r, d))
      (enumerate results 1).

(** One of the grouping loops of [_calculate_fairness_metrics]: the final
    scores of the candidates that have the attribute, by its value. *)
Definition group_scores (attr : Candidate -> option string) (results : list scored)
  : dict (list Q) :=
  fold_left
    (fun scores (x : scored) =>
       let '(candidate, m, _) := x in
       match attr candidate with
       | Some v =>
           let scores :=
             match dict_get scores v with
             | None => dict_set scores v []
             | Some _ => scores
             end in
           dict_set scores v
             (match dict_get scores v with Some l => l | None => [] end
              ++ [mr_final_score m])%list
       | None => scores
       end)
    results [].

Definition _calculate_fairness_metrics (results : list scored) : dict Q :=
  match results with
  | [] => []
  | _ =>
      (* Group by gender *)
      let gender_scores :=
        group_scores (fun c => option_map Gender_value (gender c)) results in
      (* Calculate parity *)
      let metrics := @nil (string * Q) in
      let metrics :=
        match gender_scores with
        | [] => metrics
        | _ =>
            let avg_scores :=
              map (fun gs : string * list Q => (fst gs, np_mean (snd gs)))
                  gender_scores in
            if Nat.ltb 1 (List.length avg_scores) then
              let max_avg := list_max (dict_values avg_scores) in
              let min_avg := list_min (dict_values avg_scores) in
              dict_set metrics "gender_parity_ratio"
                (if Qgtb max_avg 0 then round (min_avg / max_avg) 3 else 1)
            else metrics
        end in
      (* Socioeconomic parity *)
      let ses_scores :=
        group_scores
          (fun c => option_map SocioeconomicStatus_value (socioeconomic_status c))
          results in
      let metrics :=
        match ses_scores with
        | [] => metrics
        | _ =>
            let avg_scores :=
              map (fun ss : string * list Q => (fst ss, np_mean (snd ss)))
                  ses_scores in
            dict_set metrics "socioeconomic_parity"
              (round (np_std (dict_values avg_scores)) 3)
        end in
      dict_set metrics "overall_fairness_score"
        (round (1 - dict_get_default metrics "socioeconomic_parity" 0) 3)
  end.

(** The candidates [run_matching] scores: the active ones, restricted to
    [candidate_ids] when that list is given and not empty. *)
Definition selected_candidates (candidate_ids : option (list UUID)) : list Candidate :=
  let query := filter is_active (candidates db) in
  match candidate_ids with
  | Some ((_ :: _) as ids) =>
      filter (fun c => existsb (N.eqb (candidate_id c)) ids) query
  | _ => query
  end.

(** The writes to the session ([db.add], [db.commit]) are not part of the
    returned value and are left out. *)
Definition run_matching (pid : UUID) (candidate_ids : option (list UUID))
    (fairness_override : option FairnessConfig) : result MatchingRun :=
  match find (fun p => N.eqb (project_id p) pid) (projects db) with
  | None =>
      Raise (ValueError ("Project " ++ str_of_Z (Z.of_N pid) ++ " not found"))
  | Some project =>
      (* Get candidates *)
      let cands := selected_candidates candidate_ids in
      (* Calculate matches *)
      results <- matching_loop project fairness_override cands [] ;;
      (* Rank results *)
      let results := rank_results results in
      (* Calculate fairness metrics *)
      let metrics := _calculate_fairness_metrics results in
      OK {| run_project_id := pid;
            total_candidates := List.length cands;
            matches := map (fun r : scored => snd (fst r)) results;
            fairness_metrics := metrics |}
  end.

End Engine.

(** ** The scenario of seed_data.py and of the specification *)

Module Scenario.

Definition Python := {| skill_id := 1%N; skill_name := "Python"; skill_category := "technical" |}.
Definition ML := {| skill_id := 2%N; skill_name := "ML"; skill_category := "technical" |}.
Definition Communication := {| skill_id := 4%N; skill_name := "Communication"; skill_category := "soft" |}.
Definition Leadership := {| skill_id := 5%N; skill_name := "Leadership"; skill_category := "soft" |}.

Definition default_weights : dict Q :=
  [("technical", 6 # 10); ("communication", 2 # 10);
   ("leadership", 1 # 10); ("experience", 1 # 10)].

Definition default_fairness : fairness_json :=
  {| j_demographic_parity_threshold := Some (8 # 10);
     j_equal_opportunity_weight := Some (75 # 100);
     j_socioeconomic_boost := Some true;
     j_gender_parity := Some true;
     j_blind_screening := Some false |}.

Definition project : Project :=
  {| project_id := 100%N;
     weights_config := default_weights;
     fairness_config := default_fairness;
     required_skills := [Python; ML; Communication] |}.

Definition candidate : Candidate :=
  {| candidate_id := 1%N;
     gender := Some NON_BINARY;
     ethnicity := Some ASIAN;
     socioeconomic_status := Some LOW;
     years_experience := 3%Z;
     is_active := true |}.

Definition db : Session :=
  {| skills := [Python; ML; Communication; Leadership];
     candidate_skill_details :=
       [{| cs_candidate_id := 1%N; cs_skill_id := 1%N; proficiency_level := 95%Z |};
        {| cs_candidate_id := 1%N; cs_skill_id := 2%N; proficiency_level := 88%Z |};
        {| cs_candidate_id := 1%N; cs_skill_id := 4%N; proficiency_level := 78%Z |}];
     project_skills :=
       [{| ps_project_id := 100%N; ps_skill_id := 1%N; required_level := 90%Z; weight := 15 # 10 |};
        {| ps_project_id := 100%N; ps_skill_id := 2%N; required_level := 85%Z; weight := 2 |};
        {| ps_project_id := 100%N; ps_skill_id := 4%N; required_level := 70%Z; weight := 1 |}];
     projects := [project];
     candidates := [candidate] |}.

(** A weight configuration with every weight at the top of its range. *)
Definition unit_weights : dict Q :=
  [("technical", 1); ("communication", 1); ("leadership", 1); ("experience", 1)].

(** The candidate with other demographics. *)
Definition candidate_high_ses_male : Candidate :=
  {| candidate_id := 1%N;
     gender := Some MALE;
     ethnicity := Some CAUCASIAN;
     socioeconomic_status := Some HIGH;
     years_experience := 3%Z;
     is_active := true |}.

(** The three candidates of seed_data.py. *)
Definition alex : Candidate :=
  {| candidate_id := 11%N; gender := Some NON_BINARY; ethnicity := Some ASIAN;
     socioeconomic_status := Some MEDIUM; years_experience := 3%Z; is_active := true |}.
Definition maria : Candidate :=
  {| candidate_id := 12%N; gender := Some FEMALE; ethnicity := Some HISPANIC;
     socioeconomic_status := Some LOW; years_experience := 3%Z; is_active := true |}.
Definition james : Candidate :=
  {| candidate_id := 13%N; gender := Some MALE; ethnicity := Some CAUCASIAN;
     socioeconomic_status := Some HIGH; years_experience := 3%Z; is_active := true |}.

Definition proficiencies (cid : UUID) (python ml communication : Z)
  : list CandidateSkill :=
  [{| cs_candidate_id := cid; cs_skill_id := 1%N; proficiency_level := python |};
   {| cs_candidate_id := cid; cs_skill_id := 2%N; proficiency_level := ml |};
   {| cs_candidate_id := cid; cs_skill_id := 4%N; proficiency_level := communication |}].

Definition seed_db : Session :=
  {| skills := skills db;
     candidate_skill_details :=
       (proficiencies 11%N 95%Z 88%Z 78%Z ++ proficiencies 12%N 82%Z 85%Z 92%Z
        ++ proficiencies 13%N 88%Z 75%Z 85%Z)%list;
     project_skills := project_skills db;
     projects := [project];
     candidates := [alex; maria; james] |}.

(** A population standard deviation for the runs of the scenario: the square
    root is taken on integers, to six decimals. *)
Definition std_6dp (l : list Q) : Q :=
  let m := np_mean l in
  let v := np_mean (map (fun x => (x - m) * (x - m)) l) in
  Qmake (Z.sqrt (Qfloor (v * inject_Z (10 ^ 12)))) (10 ^ 6).

(** A candidate who states no demographics, and a result for it. *)
Definition anonymous : Candidate :=
  {| candidate_id := 14%N; gender := None; ethnicity := None;
     socioeconomic_status := None; years_experience := 0%Z; is_active := true |}.

Definition anonymous_data : MatchData :=
  {| raw_score := 0; final_score := 0; fairness_adjustment := 0%Z;
     technical_score := 0; communication_score := 0; leadership_score := 0;
     experience_score := 0; skill_gaps := []; explanations := [];
     bias_mitigation_applied := [] |}.

Definition anonymous_result : scored :=
  (anonymous, new_MatchResult anonymous project anonymous_data, anonymous_data).

(** Two candidates with the scenario's skills and no demographics, listed
    before [maria]. *)
Definition twin_a : Candidate :=
  {| candidate_id := 21%N; gender := None; ethnicity := None;
     socioeconomic_status := None; years_experience := 3%Z; is_active := true |}.
Definition twin_b : Candidate :=
  {| candidate_id := 22%N; gender := None; ethnicity := None;
     socioeconomic_status := None; years_experience := 3%Z; is_active := true |}.

Definition ties_db : Session :=
  {| skills := skills db;
     candidate_skill_details :=
       (proficiencies 21%N 95%Z 88%Z 78%Z ++ proficiencies 22%N 95%Z 88%Z 78%Z
        ++ proficiencies 12%N 82%Z 85%Z 92%Z)%list;
     project_skills := project_skills db;
     projects := [project];
     candidates := [twin_a; twin_b; maria] |}.

(** A project whose one requirement has weight 0, the least weight schemas.py
    lets through. *)
Definition zero_weight_project : Project :=
  {| project_id := 101%N;
     weights_config := default_weights;
     fairness_config := default_fairness;
     required_skills := [Python] |}.

Definition zero_weight_db : Session :=
  {| skills := skills db;
     candidate_skill_details := candidate_skill_details db;
     project_skills :=
       [{| ps_project_id := 101%N; ps_skill_id := 1%N;
           required_level := 90%Z; weight := 0 |}];
     projects := [zero_weight_project];
     candidates := [candidate] |}.

(** A session without requirement and proficiency rows. *)
Definition bare_db : Session :=
  {| skills := skills db;
     candidate_skill_details := [];
     project_skills := [];
     projects := [project];
     candidates := [anonymous] |}.

(** A match result with the given component scores. *)
Definition result_with_components (t cm ld ex : Q) : MatchResult :=
  new_MatchResult candidate project
    {| raw_score := 0; final_score := 0; fairness_adjustment := 0%Z;
       technical_score := t; communication_score := cm; leadership_score := ld;
       experience_score := ex; skill_gaps := []; explanations := [];
       bias_mitigation_applied := [] |}.

(** A project that requires no skill. *)
Definition open_project : Project :=
  {| project_id := 102%N;
     weights_config := default_weights;
     fairness_config := default_fairness;
     required_skills := [] |}.

(** Match data with a given final score. *)
Definition data_with_final (f : Q) : MatchData :=
  {| raw_score := f; final_score := f; fairness_adjustment := 0%Z;
     technical_score := 0; communication_score := 0; leadership_score := 0;
     experience_score := 0; skill_gaps := []; explanations := [];
     bias_mitigation_applied := [] |}.

(** A project whose stored fairness configuration pydantic refuses: a
    threshold above 1. *)
Definition refused_fairness : fairness_json :=
  {| j_demographic_parity_threshold := Some (3 # 2);
     j_equal_opportunity_weight := None;
     j_socioeconomic_boost := None;
     j_gender_parity := None;
     j_blind_screening := None |}.

Definition refused_project : Project :=
  {| project_id := 103%N;
     weights_config := default_weights;
     fairness_config := refused_fairness;
     required_skills := [] |}.

Definition refused_db : Session :=
  {| skills := skills db;
     candidate_skill_details := [];
     project_skills := [];
     projects := [project; refused_project];
     candidates := [candidate] |}.

End Scenario.


(** ** The rules of the fairness adjuster, one by one *)

Definition socioeconomic_rule (config : FairnessConfig) (c : Candidate) : Z :=
  match socioeconomic_boost config, socioeconomic_status c with
  | true, Some LOW => 3
  | _, _ => 0
  end%Z.

Definition gender_rule (config : FairnessConfig) (c : Candidate) : Z :=
  match gender_parity config, gender c with
  | true, Some FEMALE => 2
  | true, Some NON_BINARY => 2
  | _, _ => 0
  end%Z.

Definition early_career_rule (c : Candidate) (raw : Q) : Z :=
  if Z_lt_dec (years_experience c) 3
  then if Qlt_le_dec 70 raw then 1%Z else 0%Z
  else 0%Z.

(** The configuration with the flag [socioeconomic_boost] set to [b]. *)
Definition with_socioeconomic_boost (b : bool) (config : FairnessConfig)
  : FairnessConfig :=
  {| demographic_parity_threshold := demographic_parity_threshold config;
     equal_opportunity_weight := equal_opportunity_weight config;
     socioeconomic_boost := b;
     gender_parity := gender_parity config;
     blind_screening := blind_screening config |}.

(** ** The skill gap of one required skill *)

Definition required_level_of (db : Session) (p : Project) (s : Skill) : Z :=
  match first_project_skills db (project_id p) (skill_id s) with
  | Some r => required_level r
  | None => 80%Z
  end.

Definition actual_level_of (db : Session) (c : Candidate) (s : Skill) : Z :=
  match first_CandidateSkill db (candidate_id c) (skill_id s) with
  | Some a => proficiency_level a
  | None => 0%Z
  end.

Definition falls_short (db : Session) (c : Candidate) (p : Project) (s : Skill) : bool :=
  Z.ltb (actual_level_of db c s) (required_level_of db p s).

Definition gap_entry (db : Session) (c : Candidate) (p : Project) (s : Skill) : SkillGap :=
  {| skill := skill_name s;
     required := required_level_of db p s;
     actual := actual_level_of db c s;
     gap := (required_level_of db p s - actual_level_of db c s)%Z |}.

(** ** The technical entry of an explanation list *)

Definition technical_category (technical : Q) : string :=
  if Qlt_le_dec technical 70 then "Technical Gap"
  else if Qlt_le_dec technical 85 then "Technical Competency"
  else "Technical Excellence".

Definition is_technical_assessment (e : ExplanationItem) : bool :=
  existsb (String.eqb (category e))
    ["Technical Excellence"; "Technical Competency"; "Technical Gap"].

(** ** Valid input *)

(** Levels are in 0..100 and requirement weights in [0, 2], as schemas.py
    validates them. *)
Definition valid_session (db : Session) : Prop :=
  Forall (fun r => (0 <= proficiency_level r <= 100)%Z) (candidate_skill_details db)
  /\ Forall (fun r => (0 <= required_level r <= 100)%Z /\ 0 <= weight r <= 2)
            (project_skills db).

Definition valid_candidate (c : Candidate) : Prop := (0 <= years_experience c)%Z.

Definition nonneg_weights (w : dict Q) : Prop := Forall (fun kv => 0 <= snd kv) w.

(** The sum of the four weights a weight configuration gives. *)
Definition weight_sum (w : dict Q) : Q :=
  dict_get_default w "technical" (6 # 10) +
  dict_get_default w "communication" (2 # 10) +
  dict_get_default w "leadership" (1 # 10) +
  dict_get_default w "experience" (1 # 10).

Definition in_0_100 (q : Q) : Prop := 0 <= q /\ q <= 100.

(** ** Candidates that differ in demographics only *)

Definition same_but_demographics (c1 c2 : Candidate) : Prop :=
  candidate_id c1 = candidate_id c2
  /\ years_experience c1 = years_experience c2
  /\ is_active c1 = is_active c2.

Definition same_components (r1 r2 : MatchData) : Prop :=
  technical_score r1 = technical_score r2
  /\ communication_score r1 = communication_score r2
  /\ leadership_score r1 = leadership_score r2
  /\ experience_score r1 = experience_score r2
  /\ raw_score r1 = raw_score r2.

(** ** The entries of a run *)

(** What the scoring loop appends for a candidate and its match data. *)
Definition scored_of (project : Project) (cd : Candidate * MatchData) : scored :=
  (fst cd, new_MatchResult (fst cd) project (snd cd), snd cd).

(** The match results of a ranked list: [[r[1] for r in results]]. *)
Definition matches_of (results : list scored) : list MatchResult :=
  map (fun r : scored => snd (fst r)) results.

Definition final_key (x : scored) : Q := mr_final_score (snd (fst x)).

(** The ranks 1..n. *)
Definition ranks_from (k n : nat) : list (option Z) :=
  map (fun i => Some (Z.of_nat i)) (seq k n).

(** ** matching_engine.py: the detail view *)

(** Python's [max(a, b)]: [b] when [b > a], else [a]. *)
Definition py_max (a b : Q) : Q := if Qgtb b a then b else a.

(** [np.var]: the population variance. *)
Definition np_var (l : list Q) : Q :=
  let m := np_mean l in
  np_mean (map (fun x => (x - m) * (x - m)) l).

Definition _calculate_confidence (m : MatchResult) : Q :=
  let factors := @nil Q in
  (* Score variance from components *)
  let scores :=
    [mr_technical_score m; mr_communication_score m;
     mr_leadership_score m; mr_experience_score m] in
  let variance := np_var scores in
  let factors := (factors ++ [py_max 0 (1 - variance / 1000)])%list in
  (* Data completeness (simplified) *)
  let factors := (factors ++ [9 # 10])%list in
  round (np_mean factors) 3.

(** A row of [match_results]: the primary key and the columns. *)
Record MatchResultRow := {
  match_result_id : UUID;
  match_result : MatchResult
}.

(** The exceptions of the detail view: those of [exn], and the one of an
    attribute read on [None]. *)
Inductive detail_exn : Type :=
| Engine (e : exn)
| AttributeError (msg : string).

Record HeatmapEntry := {
  hm_skill : string;
  hm_required : Z;
  hm_actual : Z;
  hm_intensity : Q
}.

Record DecisionRoot := {
  root_stage : string;
  root_description : string;
  root_score : Q;
  root_technical : Q;
  root_communication : Q;
  root_leadership : Q;
  root_experience : Q
}.

Record DecisionFairness := {
  fl_stage : string;
  fl_description : string;
  fl_adjustments : list string;
  fl_bonus : Z
}.

Record DecisionFinal := {
  fin_stage : string;
  fin_description : string;
  fin_score : Q;
  fin_rank : option Z
}.

Record DecisionTree := {
  root : DecisionRoot;
  fairness_layer : DecisionFairness;
  final : DecisionFinal
}.

(** The dict [get_explanation_detail] returns. *)
Record ExplanationDetail := {
  detail_match_id : UUID;
  decision_tree : DecisionTree;
  competency_heatmap : list HeatmapEntry;
  bias_log : list string;
  confidence_score : Q
}.

(** The first loop of the heatmap, over [match.skill_gaps]. *)
Definition heatmap_of_gaps (gaps : list SkillGap) : list HeatmapEntry :=
  fold_left
    (fun heatmap g =>
       (heatmap ++
        [{| hm_skill := skill g;
            hm_required := required g;
            hm_actual := actual g;
            hm_intensity :=
              if Z.ltb 0 (required g)
              then inject_Z (actual g) / inject_Z (required g)
              else 0 |}])%list)
    gaps [].

(** The second loop, over [project.required_skills]: the skills without a
    recorded gap. *)
Definition heatmap_add_skills (gaps : list SkillGap) (candidate_skills : dict Z)
    (required : list Skill) (heatmap : list HeatmapEntry) : list HeatmapEntry :=
  fold_left
    (fun heatmap s =>
       if existsb (String.eqb (skill_name s)) (map skill gaps) then heatmap
       else
         (heatmap ++
          [{| hm_skill := skill_name s;
              hm_required := 80%Z;
              hm_actual := dict_get_default candidate_skills (skill_name s) 0%Z;
              hm_intensity := 1 |}])%list)
    required heatmap.

(** [{cs.skill.name: cs.proficiency_level for cs in candidate.skill_proficiencies}]:
    the rows of the candidate, each with its skill. *)
Fixpoint candidate_skills_of (db : Session) (rows : list CandidateSkill)
    (acc : dict Z) : detail_exn + dict Z :=
  match rows with
  | [] => inr acc
  | cs :: rest =>
      match find (fun s => N.eqb (skill_id s) (cs_skill_id cs)) (skills db) with
      | None => inl (AttributeError "'NoneType' object has no attribute 'name'")
      | Some s =>
          candidate_skills_of db rest
            (dict_set acc (skill_name s) (proficiency_level cs))
      end
  end.

Definition get_explanation_detail (db : Session) (match_results : list MatchResultRow)
    (id : UUID) : detail_exn + ExplanationDetail :=
  match find (fun r => N.eqb (match_result_id r) id) match_results with
  | None => inl (Engine (ValueError "Match result not found"))
  | Some row =>
      let m := match_result row in
      let candidate :=
        find (fun c => N.eqb (candidate_id c) (mr_candidate_id m)) (candidates db) in
      let project :=
        find (fun p => N.eqb (project_id p) (mr_project_id m)) (projects db) in
      (* Build decision tree *)
      let tree :=
        {| root :=
             {| root_stage := "Initial Assessment";
                root_description := "Raw competency evaluation";
                root_score := mr_raw_score m;
                root_technical := mr_technical_score m;
                root_communication := mr_communication_score m;
                root_leadership := mr_leadership_score m;
                root_experience := mr_experience_score m |};
           fairness_layer :=
             {| fl_stage := "Fairness Correction";
                fl_description := "Demographic parity adjustments";
                fl_adjustments := mr_bias_mitigation_applied m;
                fl_bonus := mr_fairness_adjustment m |};
           final :=
             {| fin_stage := "Final Scoring";
                fin_description := "Normalized final match score";
                fin_score := mr_final_score m;
                fin_rank := rank m |} |} in
      (* Build heatmap data *)
      let heatmap := heatmap_of_gaps (mr_skill_gaps m) in
      (* Add skills without gaps *)
      match candidate with
      | None =>
          inl (AttributeError
                 "'NoneType' object has no attribute 'skill_proficiencies'")
      | Some c =>
          let rows :=
            filter (fun cs => N.eqb (cs_candidate_id cs) (candidate_id c))
                   (candidate_skill_details db) in
          match candidate_skills_of db rows [] with
          | inl e => inl e
          | inr candidate_skills =>
              match project with
              | None =>
                  inl (AttributeError
                         "'NoneType' object has no attribute 'required_skills'")
              | Some p =>
                  let heatmap :=
                    heatmap_add_skills (mr_skill_gaps m) candidate_skills
                      (required_skills p) heatmap in
                  inr {| detail_match_id := id;
                         decision_tree := tree;
                         competency_heatmap := heatmap;
                         bias_log := mr_bias_mitigation_applied m;
                         confidence_score := _calculate_confidence m |}
              end
          end
      end
  end.

(** ** The cells of the heatmap *)

(** The cell of a recorded gap, and the cell of a skill without one. *)
Definition gap_cell (g : SkillGap) : HeatmapEntry :=
  {| hm_skill := skill g;
     hm_required := required g;
     hm_actual := actual g;
     hm_intensity :=
       if Z.ltb 0 (required g)
       then inject_Z (actual g) / inject_Z (required g)
       else 0 |}.

Definition plain_cell (candidate_skills : dict Z) (s : Skill) : HeatmapEntry :=
  {| hm_skill := skill_name s;
     hm_required := 80%Z;
     hm_actual := dict_get_default candidate_skills (skill_name s) 0%Z;
     hm_intensity := 1 |}.

(** The rows and the skills a detail view reads for a candidate. *)
Definition proficiency_rows (db : Session) (c : Candidate) : list CandidateSkill :=
  filter (fun cs => N.eqb (cs_candidate_id cs) (candidate_id c))
         (candidate_skill_details db).

Definition has_skill_row (db : Session) (cs : CandidateSkill) : Prop :=
  exists s, In s (skills db) /\ skill_id s = cs_skill_id cs.

(** The row the engine stores for [Scenario.james] in [Scenario.seed_db], with
    the name [Skill] bound, under the identifier 900. *)
Definition james_row : MatchResultRow :=
  {| match_result_id := 900%N;
     match_result :=
       match calculate_match ["Skill"] Scenario.seed_db Scenario.james
               Scenario.project None None with
       | OK d => new_MatchResult Scenario.james Scenario.project d
       | Raise _ => Scenario.result_with_components 0 0 0 0
       end |}.

(** ** What an [except ValueError] clause catches *)

(** [isinstance(e, ValueError)]: pydantic's ValidationError derives from
    ValueError, so the handler of the endpoint in main.py catches it too. *)
Definition is_ValueError (e : exn) : bool :=
  match e with
  | ValueError _ | ValidationError _ => true
  | NameError _ | ZeroDivisionError _ => false
  end.

(** * Properties *)

(** ** Rounding *)

Lemma Qltb_lt a b : Qltb a b = true <-> a < b.
Proof.
  unfold Qltb. rewrite negb_true_iff. split; intro H.
  - apply Qnot_le_lt. intro Hle. apply Qle_bool_iff in Hle. congruence.
  - destruct (Qle_bool b a) eqn:E; [|reflexivity].
    apply Qle_bool_iff in E. exfalso. apply (Qlt_not_le _ _ H E).
Qed.

Lemma Qltb_ge a b : Qltb a b = false <-> b <= a.
Proof.
  unfold Qltb. rewrite negb_false_iff. apply Qle_bool_iff.
Qed.

Lemma Qgtb_lt a b : Qgtb a b = true <-> b < a.
Proof. apply (Qltb_lt b a). Qed.

Lemma py_min_spec a b : py_min a b == Qmin a b.
Proof.
  unfold py_min. destruct (Qltb b a) eqn:E.
  - apply Qltb_lt in E. symmetry. apply Q.min_r. apply Qlt_le_weak, E.
  - apply Qltb_ge in E. symmetry. apply Q.min_l. exact E.
Qed.

Lemma py_min_le_l a b : py_min a b <= a.
Proof. rewrite py_min_spec. apply Q.le_min_l. Qed.

Lemma py_min_glb a b c : c <= a -> c <= b -> c <= py_min a b.
Proof. intros. rewrite py_min_spec. apply Q.min_glb; assumption. Qed.

Lemma round_half_even_floor q :
  (Qfloor q <= round_half_even q <= Qfloor q + 1)%Z.
Proof.
  unfold round_half_even.
  destruct (Qltb _ _); [lia|]. destruct (Qltb _ _); [lia|].
  destruct (Z.even _); lia.
Qed.

(** An integer below (above) [q] is below (above) its rounding. *)
Lemma round_half_even_lower (z : Z) q :
  inject_Z z <= q -> (z <= round_half_even q)%Z.
Proof.
  intro H. pose proof (round_half_even_floor q) as [Hf _].
  assert (z <= Qfloor q)%Z; [|lia].
  rewrite <- (Qfloor_Z z). apply Qfloor_resp_le, H.
Qed.

Lemma round_half_even_upper (z : Z) q :
  q <= inject_Z z -> (round_half_even q <= z)%Z.
Proof.
  intro H. unfold round_half_even.
  pose proof (Qfloor_le q) as Hfl.
  assert (Hfz : (Qfloor q <= z)%Z).
  { rewrite <- (Qfloor_Z z). apply Qfloor_resp_le, H. }
  destruct (Z.eq_dec (Qfloor q) z) as [Heq|Hne].
  - (* q is the integer z: the fraction is 0 *)
    assert (Hr : q - inject_Z (Qfloor q) < 1 # 2).
    { rewrite Heq. lra. }
    apply Qltb_lt in Hr. rewrite Hr. lia.
  - destruct (Qltb _ _); [lia|]. destruct (Qltb _ _); [lia|].
    destruct (Z.even _); lia.
Qed.

Lemma round_half_even_comp q q' : q == q' -> round_half_even q = round_half_even q'.
Proof.
  intro H. unfold round_half_even, Qltb.
  rewrite (Qfloor_comp _ _ H).
  assert (E : q - inject_Z (Qfloor q') == q' - inject_Z (Qfloor q')) by (rewrite H; reflexivity).
  rewrite (Qleb_comp _ _ (Qeq_refl (1#2)) _ _ E).
  rewrite (Qleb_comp _ _ E _ _ (Qeq_refl (1#2))).
  reflexivity.
Qed.

Lemma round_half_even_Z (z : Z) : round_half_even (inject_Z z) = z.
Proof.
  apply Z.le_antisymm.
  - apply round_half_even_upper, Qle_refl.
  - apply round_half_even_lower, Qle_refl.
Qed.

Lemma pow10_pos n : (0 < pow10 n)%Z.
Proof. unfold pow10. apply Z.pow_pos_nonneg; lia. Qed.

Lemma round_unfold q n :
  round q n == inject_Z (round_half_even (q * inject_Z (pow10 n))) / inject_Z (pow10 n).
Proof.
  unfold round. rewrite Qred_correct, Qmake_Qdiv.
  rewrite Z2Pos.id by apply pow10_pos. reflexivity.
Qed.

Lemma inject_Z_pow10_pos n : 0 < inject_Z (pow10 n).
Proof.
  replace 0 with (inject_Z 0) by reflexivity.
  rewrite <- Zlt_Qlt. apply pow10_pos.
Qed.

Lemma round_lower (z : Z) q n : inject_Z z <= q -> inject_Z z <= round q n.
Proof.
  intro H. rewrite round_unfold.
  pose proof (inject_Z_pow10_pos n) as HP.
  apply Qle_shift_div_l; [exact HP|].
  rewrite <- inject_Z_mult, <- Zle_Qle.
  apply round_half_even_lower. rewrite inject_Z_mult.
  apply Qmult_le_compat_r; [exact H | apply Qlt_le_weak, HP].
Qed.

Lemma round_upper (z : Z) q n : q <= inject_Z z -> round q n <= inject_Z z.
Proof.
  intro H. rewrite round_unfold.
  pose proof (inject_Z_pow10_pos n) as HP.
  apply Qle_shift_div_r; [exact HP|].
  rewrite <- inject_Z_mult, <- Zle_Qle.
  apply round_half_even_upper. rewrite inject_Z_mult.
  apply Qmult_le_compat_r; [exact H | apply Qlt_le_weak, HP].
Qed.

Lemma round_comp q q' n : q == q' -> round q n = round q' n.
Proof.
  intro H. unfold round.
  rewrite (round_half_even_comp (q * inject_Z (pow10 n)) (q' * inject_Z (pow10 n)));
    [reflexivity | rewrite H; reflexivity].
Qed.

(** A number with at most [n] decimals is its own rounding. *)
Lemma round_exact q n (k : Z) : q * inject_Z (pow10 n) == inject_Z k -> round q n == q.
Proof.
  intro H. rewrite round_unfold, (round_half_even_comp _ _ H), round_half_even_Z.
  rewrite <- H. field.
  intro E. pose proof (inject_Z_pow10_pos n) as HP. rewrite E in HP.
  apply (Qlt_irrefl _ HP).
Qed.

Lemma round_has_decimals q n :
  round q n * inject_Z (pow10 n) == inject_Z (round_half_even (q * inject_Z (pow10 n))).
Proof.
  rewrite round_unfold. field.
  intro E. pose proof (inject_Z_pow10_pos n) as HP. rewrite E in HP.
  apply (Qlt_irrefl _ HP).
Qed.

Lemma Qfloor_add_Z q (j : Z) : Qfloor (q + inject_Z j) = (Qfloor q + j)%Z.
Proof.
  pose proof (Qfloor_le q) as H1. pose proof (Qlt_floor q) as H2.
  pose proof (Qfloor_le (q + inject_Z j)) as H3.
  pose proof (Qlt_floor (q + inject_Z j)) as H4.
  rewrite inject_Z_plus in H2, H4. change (inject_Z 1) with 1 in H2, H4.
  assert (A : inject_Z (Qfloor (q + inject_Z j)) < inject_Z (Qfloor q + j + 1)).
  { rewrite !inject_Z_plus. change (inject_Z 1) with 1. lra. }
  assert (B : inject_Z (Qfloor q + j) < inject_Z (Qfloor (q + inject_Z j) + 1)).
  { rewrite !inject_Z_plus. change (inject_Z 1) with 1. lra. }
  rewrite <- Zlt_Qlt in A, B. lia.
Qed.

(** Adding an even integer moves the rounding by that integer. *)
Lemma round_half_even_add_even q (j : Z) :
  Z.even j = true -> round_half_even (q + inject_Z j) = (round_half_even q + j)%Z.
Proof.
  intro Hj. unfold round_half_even.
  rewrite Qfloor_add_Z.
  assert (E : q + inject_Z j - inject_Z (Qfloor q + j) == q - inject_Z (Qfloor q)).
  { rewrite inject_Z_plus. ring. }
  unfold Qltb.
  rewrite (Qleb_comp _ _ (Qeq_refl (1#2)) _ _ E).
  rewrite (Qleb_comp _ _ E _ _ (Qeq_refl (1#2))).
  rewrite Z.even_add, Hj.
  destruct (Qle_bool _ _); simpl; [|lia].
  destruct (Qle_bool _ _); simpl; [|lia].
  destruct (Z.even (Qfloor q)); simpl; lia.
Qed.

Lemma round2_add_Z q (b : Z) : round (q + inject_Z b) 2 == round q 2 + inject_Z b.
Proof.
  rewrite !round_unfold.
  assert (E : (q + inject_Z b) * inject_Z (pow10 2)
              == q * inject_Z (pow10 2) + inject_Z (b * 100)).
  { rewrite inject_Z_mult. change (inject_Z (pow10 2)) with (inject_Z 100). ring. }
  rewrite (round_half_even_comp _ _ E).
  rewrite round_half_even_add_even.
  - rewrite inject_Z_plus, inject_Z_mult.
    change (inject_Z (pow10 2)) with (inject_Z 100). field.
  - rewrite Z.even_mul. simpl. apply orb_true_r.
Qed.

(** ** The fairness adjuster *)

Lemma early_career_rule_test (c : Candidate) (raw : Q) :
  (if Z.ltb (years_experience c) 3 && Qgtb raw 70 then 1%Z else 0%Z)
  = early_career_rule c raw.
Proof.
  unfold early_career_rule.
  destruct (Z_lt_dec _ _) as [Hy|Hy].
  - apply Z.ltb_lt in Hy. rewrite Hy. simpl.
    destruct (Qlt_le_dec 70 raw) as [Hr|Hr].
    + apply Qgtb_lt in Hr. rewrite Hr. reflexivity.
    + destruct (Qgtb raw 70) eqn:E; [|reflexivity].
      apply Qgtb_lt in E. exfalso. apply (Qlt_not_le _ _ E Hr).
  - apply Z.ltb_nlt in Hy. rewrite Hy. reflexivity.
Qed.

Lemma fairness_bonus_sum (c : Candidate) (raw : Q) (config : FairnessConfig) :
  fst (_apply_fairness_constraints c raw config)
  = (socioeconomic_rule config c + gender_rule config c + early_career_rule c raw)%Z.
Proof.
  rewrite <- early_career_rule_test.
  unfold _apply_fairness_constraints, socioeconomic_rule, gender_rule.
  destruct (socioeconomic_boost config), (socioeconomic_status c) as [[]|],
           (gender_parity config), (gender c) as [[]|];
    simpl; destruct (Z.ltb _ _ && Qgtb _ _); reflexivity.
Qed.

Lemma fairness_rules_nonneg (c : Candidate) (raw : Q) (config : FairnessConfig) :
  (0 <= socioeconomic_rule config c)%Z /\ (0 <= gender_rule config c)%Z
  /\ (0 <= early_career_rule c raw)%Z.
Proof.
  unfold socioeconomic_rule, gender_rule, early_career_rule.
  destruct (socioeconomic_boost config), (socioeconomic_status c) as [[]|],
           (gender_parity config), (gender c) as [[]|];
    destruct (Z_lt_dec _ _); try destruct (Qlt_le_dec _ _); lia.
Qed.

Lemma fairness_bonus_nonneg (c : Candidate) (raw : Q) (config : FairnessConfig) :
  (0 <= fst (_apply_fairness_constraints c raw config))%Z.
Proof.
  rewrite fairness_bonus_sum.
  pose proof (fairness_rules_nonneg c raw config). lia.
Qed.

(** What [calculate_match] returns, in terms of the values it computes on the way. *)
Lemma calculate_match_inv extra db c p cw cf r :
  calculate_match extra db c p cw cf = OK r ->
  exists fairness technical communication leadership,
    match cf with
    | Some f => OK f
    | None => FairnessConfig_of_json (fairness_config p)
    end = OK fairness
    /\ _calculate_technical_score extra db (_build_candidate_vector db c p)
         (_build_requirement_vector db p) p = OK technical
    /\ _get_skill_score extra db c "Communication" = OK communication
    /\ _get_skill_score extra db c "Leadership" = OK leadership
    /\ let weights := weights_in_use cw p in
       let experience := py_min 100 (inject_Z (years_experience c * 15)) in
       let raw :=
         technical * dict_get_default weights "technical" (6 # 10) +
         communication * dict_get_default weights "communication" (2 # 10) +
         leadership * dict_get_default weights "leadership" (1 # 10) +
         experience * dict_get_default weights "experience" (1 # 10) in
       let bm := _apply_fairness_constraints c raw fairness in
       let gaps := _calculate_skill_gaps db c p in
       r = {| raw_score := round raw 2;
              final_score := round (py_min 100 (raw + inject_Z (fst bm))) 2;
              fairness_adjustment := fst bm;
              technical_score := round technical 2;
              communication_score := round communication 2;
              leadership_score := round leadership 2;
              experience_score := round experience 2;
              skill_gaps := gaps;
              explanations :=
                _generate_explanations c technical communication leadership
                  experience gaps (fst bm) (snd bm);
              bias_mitigation_applied := snd bm |}.
Proof.
  unfold calculate_match. intro H.
  destruct (match cf with Some f => OK f | None => _ end) as [fairness|] eqn:Ef;
    simpl in H; [|discriminate].
  destruct (_calculate_technical_score _ _ _ _ _) as [technical|] eqn:Et;
    simpl in H; [|discriminate].
  destruct (_get_skill_score _ _ _ "Communication") as [communication|] eqn:Ec;
    simpl in H; [|discriminate].
  destruct (_get_skill_score _ _ _ "Leadership") as [leadership|] eqn:El;
    simpl in H; [|discriminate].
  exists fairness, technical, communication, leadership.
  repeat split; try reflexivity.
  cbv zeta.
  destruct (_apply_fairness_constraints _ _ _) as [b m].
  injection H as <-. reflexivity.
Qed.

(** ** Sorting in reverse *)

Lemma StronglySorted_impl {A : Type} (R R' : A -> A -> Prop) (l : list A) :
  (forall a b, R a b -> R' a b) -> StronglySorted R l -> StronglySorted R' l.
Proof.
  intros HR. induction 1 as [|x l Hl IH Hx]; constructor; [exact IH|].
  eapply Forall_impl; [|exact Hx]. intros y Hy. apply HR, Hy.
Qed.

Section SortedReverse.

Context {A : Type}.
Variable key : A -> Q.

Lemma insert_reverse_perm x l : Permutation (insert_reverse key x l) (x :: l).
Proof.
  induction l as [|y l IH]; simpl.
  - apply Permutation_refl.
  - destruct (Qle_bool (key y) (key x)).
    + apply Permutation_refl.
    + eapply perm_trans; [apply perm_skip, IH | apply perm_swap].
Qed.

Lemma sorted_reverse_perm l : Permutation (sorted_reverse key l) l.
Proof.
  induction l as [|x l IH]; simpl.
  - apply perm_nil.
  - eapply perm_trans; [apply insert_reverse_perm | apply perm_skip, IH].
Qed.

Lemma insert_reverse_sorted x l :
  StronglySorted (fun a b => key b <= key a) l ->
  StronglySorted (fun a b => key b <= key a) (insert_reverse key x l).
Proof.
  induction 1 as [|y l Hs IH Hy]; simpl.
  - constructor; constructor.
  - destruct (Qle_bool (key y) (key x)) eqn:E.
    + apply Qle_bool_iff in E. constructor.
      * constructor; assumption.
      * constructor; [exact E|].
        eapply Forall_impl; [|exact Hy]. intros z Hz. simpl in Hz.
        eapply Qle_trans; eassumption.
    + constructor; [exact IH|].
      assert (Hxy : key x <= key y).
      { apply Qlt_le_weak, Qnot_le_lt. intro H. apply Qle_bool_iff in H. congruence. }
      eapply Permutation_Forall.
      * apply Permutation_sym, insert_reverse_perm.
      * constructor; assumption.
Qed.

Lemma sorted_reverse_sorted l :
  StronglySorted (fun a b => key b <= key a) (sorted_reverse key l).
Proof.
  induction l as [|x l IH]; simpl.
  - constructor.
  - apply insert_reverse_sorted, IH.
Qed.

(** Stability: a test that picks out elements of one key sees them in the
    order of the input. *)
Variable P : A -> bool.
Hypothesis P_one_key : forall x y, P x = true -> P y = true -> key x == key y.

Lemma insert_reverse_filter x l :
  filter P (insert_reverse key x l) = filter P (x :: l).
Proof.
  induction l as [|y l IH]; [reflexivity|].
  simpl insert_reverse. destruct (Qle_bool (key y) (key x)) eqn:E; [reflexivity|].
  change (filter P (y :: insert_reverse key x l))
    with (if P y then y :: filter P (insert_reverse key x l)
          else filter P (insert_reverse key x l)).
  rewrite IH. simpl.
  destruct (P y) eqn:Py, (P x) eqn:Px; try reflexivity.
  exfalso. pose proof (P_one_key y x Py Px) as Hk.
  assert (Hle : key y <= key x) by (rewrite Hk; apply Qle_refl).
  apply Qle_bool_iff in Hle. congruence.
Qed.

Lemma sorted_reverse_stable l : filter P (sorted_reverse key l) = filter P l.
Proof.
  induction l as [|x l IH]; [reflexivity|].
  simpl sorted_reverse. rewrite insert_reverse_filter. simpl. rewrite IH. reflexivity.
Qed.

End SortedReverse.

(** ** The skill gap analyzer *)

Lemma gaps_loop_spec db c p :
  gaps_loop db c p = map (gap_entry db c p) (filter (falls_short db c p) (required_skills p)).
Proof.
  unfold gaps_loop.
  assert (Hgen : forall l acc,
    fold_left
      (fun gaps s =>
         let required := first_project_skills db (project_id p) (skill_id s) in
         let required_level :=
           match required with Some r => required_level r | None => 80%Z end in
         let actual := first_CandidateSkill db (candidate_id c) (skill_id s) in
         let actual_level :=
           match actual with Some a => proficiency_level a | None => 0%Z end in
         if Z.ltb actual_level required_level then
           (gaps ++ [{| skill := skill_name s;
                        required := required_level;
                        actual := actual_level;
                        gap := (required_level - actual_level)%Z |}])%list
         else gaps) l acc
    = (acc ++ map (gap_entry db c p) (filter (falls_short db c p) l))%list).
  { induction l as [|s l IH]; intro acc; simpl.
    - rewrite app_nil_r. reflexivity.
    - rewrite IH. unfold falls_short at 2, actual_level_of, required_level_of.
      destruct (Z.ltb _ _); [|reflexivity].
      simpl. rewrite <- app_assoc. reflexivity. }
  apply (Hgen (required_skills p) []).
Qed.

(** C4. The skill-gap list has one entry, of skill, required and actual level
    and gap = required - actual, for each required skill whose actual level is
    below the required one, and no other; it is in descending order of gap, and
    entries of equal gap are in the order in which the requirement set lists
    their skills. *)
Theorem skill_gaps_sorted_stable (db : Session) (c : Candidate) (p : Project) :
  let gaps := _calculate_skill_gaps db c p in
  let shortfalls :=
    map (gap_entry db c p) (filter (falls_short db c p) (required_skills p)) in
  Permutation gaps shortfalls
  /\ Forall (fun e => (actual e < required e)%Z
                      /\ gap e = (required e - actual e)%Z) gaps
  /\ StronglySorted (fun a b => (gap b <= gap a)%Z) gaps
  /\ forall g : Z,
       filter (fun e => Z.eqb (gap e) g) gaps
       = filter (fun e => Z.eqb (gap e) g) shortfalls.
Proof.
  intros gaps shortfalls. subst gaps shortfalls.
  unfold _calculate_skill_gaps. rewrite gaps_loop_spec.
  set (shortfalls := map _ _).
  set (key := fun x : SkillGap => inject_Z (gap x)).
  assert (Hperm : Permutation (sorted_reverse key shortfalls) shortfalls)
    by apply sorted_reverse_perm.
  split; [exact Hperm|]. split; [|split].
  - eapply Permutation_Forall; [apply Permutation_sym, Hperm|].
    subst shortfalls. apply Forall_forall. intros e He.
    apply in_map_iff in He. destruct He as (s & <- & Hs).
    apply filter_In in Hs. destruct Hs as [_ Hs].
    unfold falls_short in Hs. apply Z.ltb_lt in Hs.
    simpl. split; [exact Hs | reflexivity].
  - eapply StronglySorted_impl; [|apply (sorted_reverse_sorted key)].
    intros x y Hy. unfold key in Hy. rewrite <- Zle_Qle in Hy. exact Hy.
  - intro g. apply sorted_reverse_stable.
    intros x y Hx Hy. apply Z.eqb_eq in Hx, Hy. unfold key. rewrite Hx, Hy.
    reflexivity.
Qed.

(** ** The explanation generator *)

Lemma technical_category_test (t : Q) :
  (if Qgeb t 85 then "Technical Excellence"
   else if Qgeb t 70 then "Technical Competency" else "Technical Gap")
  = technical_category t.
Proof.
  unfold technical_category, Qgeb.
  destruct (Qlt_le_dec t 70) as [H|H].
  - destruct (Qle_bool 85 t) eqn:E1.
    { apply Qle_bool_iff in E1. exfalso. apply (Qlt_not_le _ _ H). lra. }
    destruct (Qle_bool 70 t) eqn:E2; [|reflexivity].
    apply Qle_bool_iff in E2. exfalso. apply (Qlt_not_le _ _ H E2).
  - destruct (Qlt_le_dec t 85) as [H'|H'].
    + destruct (Qle_bool 85 t) eqn:E1.
      { apply Qle_bool_iff in E1. exfalso. apply (Qlt_not_le _ _ H' E1). }
      apply Qle_bool_iff in H. rewrite H. reflexivity.
    + apply Qle_bool_iff in H'. rewrite H'. reflexivity.
Qed.

(** C10. An explanation list has exactly one technical entry, its first: of
    category "Technical Excellence" when the technical score is at least 85,
    "Technical Competency" when it is in [70, 85), "Technical Gap" below 70.
    The list is never empty. *)
Theorem explanations_have_one_technical_entry
    (c : Candidate) (technical communication leadership experience : Q)
    (gaps : list SkillGap) (fairness_bonus : Z) (mitigations : list string) :
  let l := _generate_explanations c technical communication leadership
             experience gaps fairness_bonus mitigations in
  (exists e rest,
      l = e :: rest
      /\ category e = technical_category technical
      /\ filter is_technical_assessment l = [e])
  /\ List.length (filter is_technical_assessment l) = 1%nat
  /\ l <> [].
Proof.
  intro l.
  assert (H : exists e rest,
             l = e :: rest /\ category e = technical_category technical
             /\ filter is_technical_assessment l = [e]).
  { subst l. unfold _generate_explanations.
    rewrite <- technical_category_test.
    destruct (Qgeb technical 85); [|destruct (Qgeb technical 70)];
      destruct (Qgeb communication 85), (Qgeb leadership 80), gaps,
               (Z.ltb 0 fairness_bonus), (Z.leb 5 (years_experience c));
      (eexists; eexists; split; [reflexivity | split; reflexivity]). }
  split; [exact H|].
  destruct H as (e & rest & Hl & _ & Hf). split.
  - rewrite Hf. reflexivity.
  - rewrite Hl. discriminate.
Qed.

(** ** Bounds on the scores *)

Lemma dict_get_In {V : Type} (d : dict V) k v : dict_get d k = Some v -> In (k, v) d.
Proof.
  induction d as [|[k' v'] d IH]; simpl; [discriminate|].
  destruct (String.eqb k k') eqn:E.
  - apply String.eqb_eq in E. subst k'. intros [= <-]. left. reflexivity.
  - intro H. right. apply IH, H.
Qed.

Lemma dict_set_Forall {V : Type} (P : string * V -> Prop) (d : dict V) k v :
  (forall k', P (k', v)) -> Forall P d -> Forall P (dict_set d k v).
Proof.
  intros Hv. induction 1 as [|[k' v'] d Hkv Hd IH]; simpl.
  - constructor; [apply Hv | constructor].
  - destruct (String.eqb k k'); constructor; auto.
Qed.

Lemma dict_get_default_Forall {V : Type} (P : V -> Prop) (d : dict V) k dflt :
  Forall (fun kv => P (snd kv)) d -> P dflt -> P (dict_get_default d k dflt).
Proof.
  intros Hd Hdflt. unfold dict_get_default.
  destruct (dict_get d k) as [v|] eqn:E; [|exact Hdflt].
  apply dict_get_In in E. rewrite Forall_forall in Hd. apply (Hd _ E).
Qed.

Lemma candidate_vector_nonneg db c p :
  valid_session db ->
  Forall (fun kv => (0 <= snd kv)%Z) (_build_candidate_vector db c p).
Proof.
  intros [Hcs _]. unfold _build_candidate_vector.
  assert (Hgen : forall l acc,
            Forall (fun kv : string * Z => (0 <= snd kv)%Z) acc ->
            Forall (fun kv : string * Z => (0 <= snd kv)%Z)
              (fold_left
                 (fun vector skill_req =>
                    let proficiency :=
                      first_CandidateSkill db (candidate_id c) (skill_id skill_req) in
                    dict_set vector (skill_name skill_req)
                      match proficiency with
                      | Some p => proficiency_level p
                      | None => 0%Z
                      end) l acc)).
  { induction l as [|s l IH]; intros acc Hacc; simpl; [exact Hacc|].
    apply IH. apply dict_set_Forall; [|exact Hacc].
    intros k'. simpl. unfold first_CandidateSkill.
    destruct (find _ _) as [r|] eqn:E; [|lia].
    apply find_some in E. destruct E as [Hin _].
    rewrite Forall_forall in Hcs. apply Hcs in Hin. lia. }
  apply Hgen. constructor.
Qed.

Lemma skill_score_bounds (a r : Z) : (0 <= a)%Z -> in_0_100 (skill_score a r).
Proof.
  intro Ha. unfold skill_score, in_0_100.
  destruct (Z.ltb 0 r) eqn:Er.
  - apply Z.ltb_lt in Er. split; [|apply py_min_le_l].
    apply py_min_glb; [lra|].
    assert (Hr : 0 < inject_Z r) by (change 0 with (inject_Z 0); rewrite <- Zlt_Qlt; exact Er).
    assert (Ha' : 0 <= inject_Z a) by (change 0 with (inject_Z 0); rewrite <- Zle_Qle; exact Ha).
    apply Qmult_le_0_compat; [|lra].
    apply Qle_shift_div_l; [exact Hr|]. lra.
  - destruct (Z.ltb 0 a); lra.
Qed.

Lemma technical_loop_bounds extra db cv p items :
  valid_session db ->
  Forall (fun kv => (0 <= snd kv)%Z) cv ->
  forall scores weights scores' weights',
    Forall in_0_100 scores -> Forall (fun w => 0 <= w) weights ->
    technical_loop extra db cv p items scores weights = OK (scores', weights') ->
    Forall in_0_100 scores' /\ Forall (fun w => 0 <= w) weights'.
Proof.
  intros [_ Hps] Hcv.
  induction items as [|[name req] items IH]; intros scores weights scores' weights' Hs Hw H.
  - simpl in H. injection H as <- <-. split; assumption.
  - simpl in H.
    destruct (first_project_skills_named extra db (project_id p) name) as [rec|] eqn:E;
      simpl in H; [|discriminate].
    eapply IH; [| |exact H].
    + apply Forall_app. split; [exact Hs|]. constructor; [|constructor].
      apply skill_score_bounds.
      apply (dict_get_default_Forall (fun v => (0 <= v)%Z)); [exact Hcv | lia].
    + apply Forall_app. split; [exact Hw|]. constructor; [|constructor].
      destruct rec as [r|]; [|lra].
      unfold first_project_skills_named in E.
      destruct (load_global extra "Skill"); simpl in E; [|discriminate].
      injection E as Hfind. apply find_some in Hfind. destruct Hfind as [Hin _].
      rewrite Forall_forall in Hps. apply Hps in Hin. tauto.
Qed.

Lemma weighted_sum_bounds (a w : list Q) :
  Forall in_0_100 a -> Forall (fun x => 0 <= x) w ->
  0 <= Qsum (map (fun p => fst p * snd p) (combine a w))
  /\ Qsum (map (fun p => fst p * snd p) (combine a w)) <= 100 * Qsum w
  /\ 0 <= Qsum w.
Proof.
  intros Ha. revert w. induction Ha as [|x a [Hx0 Hx1] Ha IH]; intros w Hw.
  - simpl. induction Hw as [|y w Hy Hw IHw]; simpl; [lra|]. lra.
  - destruct Hw as [|y w Hy Hw]; simpl; [lra|].
    destruct (IH w Hw) as (I1 & I2 & I3).
    assert (0 <= x * y) by (apply Qmult_le_0_compat; assumption).
    assert (x * y <= 100 * y).
    { apply Qmult_le_compat_r; assumption. }
    lra.
Qed.

Lemma np_average_bounds (a w : list Q) (t : Q) :
  Forall in_0_100 a -> Forall (fun x => 0 <= x) w ->
  np_average a w = OK t -> in_0_100 t.
Proof.
  intros Ha Hw. unfold np_average.
  destruct (Qeq_bool (Qsum w) 0) eqn:E; [discriminate|].
  intros [= <-]. apply Qeq_bool_neq in E.
  destruct (weighted_sum_bounds a w Ha Hw) as (I1 & I2 & I3).
  assert (Hpos : 0 < Qsum w).
  { apply Qle_lteq in I3. destruct I3 as [I3|I3]; [exact I3|].
    exfalso. apply E. symmetry. exact I3. }
  split.
  - apply Qle_shift_div_l; [exact Hpos|]. lra.
  - apply Qle_shift_div_r; [exact Hpos|]. lra.
Qed.

Lemma technical_score_bounds extra db c p t :
  valid_session db ->
  _calculate_technical_score extra db (_build_candidate_vector db c p)
    (_build_requirement_vector db p) p = OK t ->
  in_0_100 t.
Proof.
  intros Hdb. unfold _calculate_technical_score.
  destruct (technical_loop _ _ _ _ _ _ _) as [[scores weights]|] eqn:E;
    simpl; [|discriminate].
  apply technical_loop_bounds in E;
    [|exact Hdb | apply candidate_vector_nonneg, Hdb | constructor | constructor].
  destruct E as [Hs Hw].
  destruct scores as [|s scores].
  - intros [= <-]. split; lra.
  - apply np_average_bounds; assumption.
Qed.

Lemma get_skill_score_bounds extra db c name v :
  valid_session db -> _get_skill_score extra db c name = OK v -> in_0_100 v.
Proof.
  intros [Hcs _]. unfold _get_skill_score, first_CandidateSkill_named.
  destruct (load_global extra "Skill"); simpl; [|discriminate].
  destruct (find _ _) as [r|] eqn:E; intros [= <-].
  - apply find_some in E. destruct E as [Hin _].
    rewrite Forall_forall in Hcs. apply Hcs in Hin.
    split.
    + change 0 with (inject_Z 0). rewrite <- Zle_Qle. lia.
    + change 100 with (inject_Z 100). rewrite <- Zle_Qle. lia.
  - split; lra.
Qed.

Lemma experience_score_bounds (years : Z) :
  (0 <= years)%Z -> in_0_100 (py_min 100 (inject_Z (years * 15))).
Proof.
  intro H. split; [|apply py_min_le_l].
  apply py_min_glb; [lra|].
  change 0 with (inject_Z 0). rewrite <- Zle_Qle. lia.
Qed.

Lemma round_in_0_100 q n : in_0_100 q -> in_0_100 (round q n).
Proof.
  intros [H0 H1]. split.
  - apply (round_lower 0). exact H0.
  - apply (round_upper 100). exact H1.
Qed.

Lemma weighted_term_bounds (x w : Q) :
  in_0_100 x -> 0 <= w -> 0 <= x * w /\ x * w <= 100 * w.
Proof.
  intros [H0 H1] Hw. split.
  - apply Qmult_le_0_compat; assumption.
  - apply Qmult_le_compat_r; assumption.
Qed.

(** The arithmetic of lines 49 to 64, in a namespace where the scorer returns:
    on levels in 0..100, a non-negative number of years and non-negative
    weights, the final score and the four component scores are in [0, 100];
    the raw score is the plain weighted sum: it is not negative, and it is at
    most 100 when the weights in use sum to at most 1. *)
Lemma calculate_match_scores_bounded extra db c p cw cf r :
  valid_session db -> valid_candidate c -> nonneg_weights (weights_in_use cw p) ->
  calculate_match extra db c p cw cf = OK r ->
  in_0_100 (final_score r)
  /\ in_0_100 (technical_score r)
  /\ in_0_100 (communication_score r)
  /\ in_0_100 (leadership_score r)
  /\ in_0_100 (experience_score r)
  /\ 0 <= raw_score r
  /\ (weight_sum (weights_in_use cw p) <= 1 -> raw_score r <= 100).
Proof.
  intros Hdb Hc Hw H.
  apply calculate_match_inv in H.
  destruct H as (fairness & t & cm & ld & _ & Ht & Hcm & Hld & Hr).
  cbv zeta in Hr.
  apply technical_score_bounds in Ht; [|exact Hdb].
  apply get_skill_score_bounds in Hcm; [|exact Hdb].
  apply get_skill_score_bounds in Hld; [|exact Hdb].
  pose proof (experience_score_bounds _ Hc) as He.
  set (w := weights_in_use cw p) in *.
  set (e := py_min 100 (inject_Z (years_experience c * 15))) in *.
  assert (Hwt : 0 <= dict_get_default w "technical" (6 # 10))
    by (apply (dict_get_default_Forall (fun v => 0 <= v)); [exact Hw | lra]).
  assert (Hwc : 0 <= dict_get_default w "communication" (2 # 10))
    by (apply (dict_get_default_Forall (fun v => 0 <= v)); [exact Hw | lra]).
  assert (Hwl : 0 <= dict_get_default w "leadership" (1 # 10))
    by (apply (dict_get_default_Forall (fun v => 0 <= v)); [exact Hw | lra]).
  assert (Hwe : 0 <= dict_get_default w "experience" (1 # 10))
    by (apply (dict_get_default_Forall (fun v => 0 <= v)); [exact Hw | lra]).
  destruct (weighted_term_bounds _ _ Ht Hwt) as [T0 T1].
  destruct (weighted_term_bounds _ _ Hcm Hwc) as [C0 C1].
  destruct (weighted_term_bounds _ _ Hld Hwl) as [L0 L1].
  destruct (weighted_term_bounds _ _ He Hwe) as [E0 E1].
  set (raw := t * dict_get_default w "technical" (6 # 10) +
              cm * dict_get_default w "communication" (2 # 10) +
              ld * dict_get_default w "leadership" (1 # 10) +
              e * dict_get_default w "experience" (1 # 10)) in *.
  assert (Hraw0 : 0 <= raw) by (unfold raw; clear - T0 C0 L0 E0; lra).
  pose proof (fairness_bonus_nonneg c raw fairness) as Hb.
  subst r. simpl.
  repeat split; try (apply round_in_0_100; assumption).
  - apply (round_lower 0). change (inject_Z 0) with 0.
    apply py_min_glb; [clear; lra|].
    assert (Hb' : 0 <= inject_Z (fst (_apply_fairness_constraints c raw fairness))).
    { change 0 with (inject_Z 0). rewrite <- Zle_Qle. exact Hb. }
    clear - Hraw0 Hb'. lra.
  - apply (round_upper 100). apply py_min_le_l.
  - apply (round_lower 0). exact Hraw0.
  - intro Hsum. apply (round_upper 100). unfold weight_sum in Hsum.
    unfold raw. change (inject_Z 100) with 100.
    clear - T1 C1 L1 E1 Hsum. lra.
Qed.

(** The scenario is valid input; with the name [Skill] bound its scores are
    within the bounds. *)
Lemma calculate_match_scores_bounded_witness :
  exists r,
    calculate_match ["Skill"] Scenario.db Scenario.candidate Scenario.project
      None None = OK r
    /\ in_0_100 (final_score r)
    /\ in_0_100 (technical_score r)
    /\ in_0_100 (communication_score r)
    /\ in_0_100 (leadership_score r)
    /\ in_0_100 (experience_score r)
    /\ 0 <= raw_score r
    /\ (weight_sum (weights_in_use None Scenario.project) <= 1 -> raw_score r <= 100).
Proof.
  eexists. split; [vm_compute; reflexivity|].
  apply (calculate_match_scores_bounded ["Skill"] Scenario.db Scenario.candidate
           Scenario.project None None).
  - split; repeat constructor; simpl; try lia; discriminate.
  - unfold valid_candidate. simpl. lia.
  - repeat constructor; simpl; discriminate.
  - vm_compute. reflexivity.
Defined.

(** With the name [Skill] bound and each weight 1, within the range
    schemas.py gives a weight, the scenario's raw score is 223: lines 52 to
    57 do not clamp it. *)
Lemma raw_score_exceeds_100 :
  valid_session Scenario.db
  /\ valid_candidate Scenario.candidate
  /\ Forall (fun kv => 0 <= snd kv <= 1) Scenario.unit_weights
  /\ exists r,
       calculate_match ["Skill"] Scenario.db Scenario.candidate Scenario.project
         (Some Scenario.unit_weights) None = OK r
       /\ raw_score r == 223
       /\ ~ in_0_100 (raw_score r).
Proof.
  split; [|split; [|split]].
  - split; repeat constructor; simpl; try lia; discriminate.
  - unfold valid_candidate. simpl. lia.
  - repeat constructor; simpl; discriminate.
  - eexists. split; [vm_compute; reflexivity|]. split.
    + reflexivity.
    + intros [_ H]. revert H. vm_compute. intro H. apply H. reflexivity.
Qed.

(** ** Demographics and the component scorer *)

Lemma build_candidate_vector_by_id db c1 c2 p :
  candidate_id c1 = candidate_id c2 ->
  _build_candidate_vector db c1 p = _build_candidate_vector db c2 p.
Proof. intro H. unfold _build_candidate_vector. rewrite H. reflexivity. Qed.

Lemma get_skill_score_by_id extra db c1 c2 name :
  candidate_id c1 = candidate_id c2 ->
  _get_skill_score extra db c1 name = _get_skill_score extra db c2 name.
Proof. intro H. unfold _get_skill_score. rewrite H. reflexivity. Qed.

(** C9. Two candidates that differ in gender, ethnicity and socioeconomic
    status only, scored against the same project with the same configuration,
    have the same outcome up to the fairness adjustment: either both scorings
    return, with the same four component scores and the same raw score, or both
    raise the same exception. *)
Theorem demographics_do_not_reach_component_scores extra db c1 c2 p cw cf :
  same_but_demographics c1 c2 ->
  match calculate_match extra db c1 p cw cf, calculate_match extra db c2 p cw cf with
  | OK r1, OK r2 => same_components r1 r2
  | Raise e1, Raise e2 => e1 = e2
  | _, _ => False
  end.
Proof.
  intros (Hid & Hy & _). unfold calculate_match.
  rewrite (build_candidate_vector_by_id db c1 c2 p Hid).
  rewrite !(get_skill_score_by_id extra db c1 c2 _ Hid).
  rewrite Hy.
  destruct (match cf with Some f => OK f | None => _ end) as [fairness|e];
    simpl; [|reflexivity].
  destruct (_calculate_technical_score _ _ _ _ _) as [t|e]; simpl; [|reflexivity].
  destruct (_get_skill_score _ _ _ "Communication") as [cm|e]; simpl; [|reflexivity].
  destruct (_get_skill_score _ _ _ "Leadership") as [ld|e]; simpl; [|reflexivity].
  destruct (_apply_fairness_constraints c1 _ _) as [b1 m1].
  destruct (_apply_fairness_constraints c2 _ _) as [b2 m2].
  unfold same_components. simpl. repeat split; reflexivity.
Qed.

(** The scenario's candidate and a male candidate of high socioeconomic status
    with the same skills: same components and raw score, with the name [Skill]
    bound; the same exception without. *)
Lemma demographics_do_not_reach_component_scores_witness :
  (exists r1 r2,
      calculate_match ["Skill"] Scenario.db Scenario.candidate Scenario.project
        None None = OK r1
      /\ calculate_match ["Skill"] Scenario.db Scenario.candidate_high_ses_male
           Scenario.project None None = OK r2
      /\ same_components r1 r2
      /\ final_score r1 <> final_score r2)
  /\ match calculate_match [] Scenario.db Scenario.candidate Scenario.project None None,
           calculate_match [] Scenario.db Scenario.candidate_high_ses_male
             Scenario.project None None with
     | OK r1, OK r2 => same_components r1 r2
     | Raise e1, Raise e2 => e1 = e2
     | _, _ => False
     end.
Proof.
  split.
  - pose proof (demographics_do_not_reach_component_scores ["Skill"] Scenario.db
                  Scenario.candidate Scenario.candidate_high_ses_male
                  Scenario.project None None) as H.
    destruct (calculate_match ["Skill"] Scenario.db Scenario.candidate
                Scenario.project None None) as [r1|e1] eqn:E1;
      [|vm_compute in E1; discriminate].
    destruct (calculate_match ["Skill"] Scenario.db Scenario.candidate_high_ses_male
                Scenario.project None None) as [r2|e2] eqn:E2;
      [|vm_compute in E2; discriminate].
    exists r1, r2. repeat split; try apply H; try (repeat split; reflexivity).
    vm_compute in E1, E2. injection E1 as <-. injection E2 as <-.
    simpl. discriminate.
  - apply (demographics_do_not_reach_component_scores [] Scenario.db
             Scenario.candidate Scenario.candidate_high_ses_male
             Scenario.project None None).
    repeat split; reflexivity.
Defined.

(** ** Running a project *)

Lemma find_project db pid :
  (exists p, In p (projects db) /\ project_id p = pid) ->
  exists p, find (fun p => N.eqb (project_id p) pid) (projects db) = Some p
            /\ project_id p = pid.
Proof.
  intros (p & Hin & Hid).
  destruct (find _ _) as [p'|] eqn:E.
  - exists p'. split; [reflexivity|].
    apply find_some in E. destruct E as [_ E]. apply N.eqb_eq, E.
  - exfalso. apply (find_none _ _ E) in Hin. rewrite Hid, N.eqb_refl in Hin.
    discriminate.
Qed.

Example weights_in_use_override :
  weights_in_use (Some Scenario.unit_weights) Scenario.project = Scenario.unit_weights
  /\ weights_in_use (Some []) Scenario.project = Scenario.default_weights
  /\ weights_in_use None Scenario.project = Scenario.default_weights.
Proof. repeat split. Qed.

Example selected_candidates_by_id :
  selected_candidates Scenario.seed_db (Some [13%N; 11%N])
  = [Scenario.alex; Scenario.james]
  /\ selected_candidates Scenario.seed_db None
     = [Scenario.alex; Scenario.maria; Scenario.james].
Proof. split; reflexivity. Qed.

(** An empty list of identifiers is falsy: it selects what no list selects. *)
Lemma empty_id_list_selects_all_active db :
  selected_candidates db (Some []) = selected_candidates db None
  /\ selected_candidates db None = filter is_active (candidates db).
Proof. split; reflexivity. Qed.

(** C6. When the project exists and the candidate set of the run (the active
    candidates, restricted to the identifiers asked for) is empty,
    [run_matching] raises nothing and returns no match and empty fairness
    metrics. *)
Theorem run_matching_empty_candidate_set extra db np_std pid cids fo :
  (exists p, In p (projects db) /\ project_id p = pid) ->
  selected_candidates db cids = [] ->
  run_matching extra db np_std pid cids fo
  = OK {| run_project_id := pid;
          total_candidates := 0;
          matches := [];
          fairness_metrics := [] |}.
Proof.
  intros Hp Hsel. apply find_project in Hp. destruct Hp as (p & Hp & _).
  unfold run_matching. rewrite Hp, Hsel. reflexivity.
Qed.

(** The module as it is written, the project of the scenario, and identifiers
    that name no candidate. *)
Lemma run_matching_empty_candidate_set_witness :
  run_matching [] Scenario.seed_db Scenario.std_6dp 100%N (Some [7%N]) None
  = OK {| run_project_id := 100%N;
          total_candidates := 0;
          matches := [];
          fairness_metrics := [] |}.
Proof.
  apply (run_matching_empty_candidate_set [] Scenario.seed_db Scenario.std_6dp
           100%N (Some [7%N]) None).
  - exists Scenario.project. split; [left; reflexivity | reflexivity].
  - reflexivity.
Defined.

Lemma matching_loop_inv extra db p fo cands :
  forall acc res,
    matching_loop extra db p fo cands acc = OK res ->
    exists data,
      Forall2 (fun c d => calculate_match extra db c p None fo = OK d) cands data
      /\ res = (acc ++ map (scored_of p) (combine cands data))%list.
Proof.
  induction cands as [|c cands IH]; intros acc res H; simpl in H.
  - injection H as <-. exists []. split; [constructor|].
    simpl. rewrite app_nil_r. reflexivity.
  - destruct (calculate_match extra db c p None fo) as [d|] eqn:E;
      simpl in H; [|discriminate].
    apply IH in H. destruct H as (data & HF & ->).
    exists (d :: data). split; [constructor; assumption|].
    simpl. rewrite <- app_assoc. reflexivity.
Qed.

(** A run returns when every candidate of the set is scored. *)
Lemma matching_loop_returns extra db p fo cands :
  Forall (fun c => exists d, calculate_match extra db c p None fo = OK d) cands ->
  forall acc, exists res, matching_loop extra db p fo cands acc = OK res.
Proof.
  induction 1 as [|c cands (d & Hd) _ IH]; intro acc; simpl.
  - eexists. reflexivity.
  - rewrite Hd. simpl. apply IH.
Qed.

Lemma rank_results_unfold results :
  matches_of (rank_results results)
  = map (fun rx : Z * scored => set_rank (snd (fst (snd rx))) (fst rx))
        (enumerate (sorted_reverse final_key results) 1).
Proof.
  unfold matches_of, rank_results. rewrite map_map.
  apply map_ext. intros [r [[c m] d]]. reflexivity.
Qed.

Lemma enumerated_ranks (l : list scored) :
  forall k : nat,
    map rank (map (fun rx : Z * scored => set_rank (snd (fst (snd rx))) (fst rx))
                  (enumerate l (Z.of_nat k)))
    = ranks_from k (List.length l).
Proof.
  induction l as [|x l IH]; intro k; [reflexivity|].
  change (ranks_from k (List.length (x :: l)))
    with (Some (Z.of_nat k) :: ranks_from (S k) (List.length l)).
  simpl. f_equal.
  replace (Z.of_nat k + 1)%Z with (Z.of_nat (S k)) by lia.
  apply IH.
Qed.

(** Writing the ranks leaves every other field as it was. *)
Lemma enumerated_fields {B : Type} (f : MatchResult -> B) (l : list scored) :
  (forall m r, f (set_rank m r) = f m) ->
  forall k,
    map f (map (fun rx : Z * scored => set_rank (snd (fst (snd rx))) (fst rx))
               (enumerate l k))
    = map (fun x : scored => f (snd (fst x))) l.
Proof.
  intro Hf. induction l as [|x l IH]; intro k; [reflexivity|].
  simpl. rewrite Hf, IH. reflexivity.
Qed.

Lemma StronglySorted_map {A B : Type} (f : A -> B) (R : B -> B -> Prop) (l : list A) :
  StronglySorted R (map f l) <-> StronglySorted (fun a b => R (f a) (f b)) l.
Proof.
  induction l as [|x l IH]; simpl.
  - split; constructor.
  - split; intro H; inversion H as [|? ? Hl Hx]; subst; constructor.
    + apply IH, Hl.
    + rewrite Forall_map in Hx. exact Hx.
    + apply IH, Hl.
    + rewrite Forall_map. exact Hx.
Qed.

Lemma filter_map_comm {A B : Type} (f : A -> B) (P : B -> bool) (l : list A) :
  filter P (map f l) = map f (filter (fun x => P (f x)) l).
Proof.
  induction l as [|x l IH]; [reflexivity|].
  simpl. destruct (P (f x)); simpl; rewrite IH; reflexivity.
Qed.

Lemma map_fst_combine {A B : Type} (f : A -> B -> Prop) (l : list A) (l' : list B) :
  Forall2 f l l' -> map fst (combine l l') = l.
Proof.
  induction 1; [reflexivity|]. simpl. f_equal. assumption.
Qed.

Section Ranked.

Variable p : Project.
Variable cands : list Candidate.
Variable data : list MatchData.
Hypothesis cands_data : List.length cands = List.length data.

Let results := map (scored_of p) (combine cands data).
Let ms := matches_of (rank_results results).

Lemma ranked_fields {B : Type} (f : MatchResult -> B) :
  (forall m r, f (set_rank m r) = f m) ->
  map f ms
  = map (fun x : scored => f (snd (fst x))) (sorted_reverse final_key results).
Proof.
  intro Hf. unfold ms. rewrite rank_results_unfold.
  apply enumerated_fields, Hf.
Qed.

Lemma results_length : List.length results = List.length cands.
Proof.
  unfold results. rewrite length_map, length_combine, <- cands_data.
  apply Nat.min_id.
Qed.

Lemma ranked_length : List.length ms = List.length cands.
Proof.
  rewrite <- (length_map mr_candidate_id), ranked_fields by reflexivity.
  rewrite length_map, (Permutation_length (sorted_reverse_perm final_key results)).
  apply results_length.
Qed.

Lemma ranked_candidates :
  Permutation (map mr_candidate_id ms) (map candidate_id cands).
Proof.
  rewrite ranked_fields by reflexivity.
  eapply perm_trans.
  - apply Permutation_map, sorted_reverse_perm.
  - unfold results. rewrite map_map. simpl.
    rewrite <- (map_map fst candidate_id).
    assert (E : map fst (combine cands data) = cands).
    { clear results ms. revert data cands_data.
      induction cands as [|c l IH]; intros [|d ds] H; try discriminate; [reflexivity|].
      simpl. f_equal. apply IH. simpl in H. lia. }
    rewrite E. apply Permutation_refl.
Qed.

Lemma ranked_sorted :
  StronglySorted (fun a b => mr_final_score b <= mr_final_score a) ms.
Proof.
  apply (StronglySorted_map mr_final_score (fun x y => y <= x)).
  rewrite ranked_fields by reflexivity.
  apply (StronglySorted_map (fun x : scored => mr_final_score (snd (fst x)))
           (fun x y => y <= x)).
  apply (sorted_reverse_sorted final_key).
Qed.

Lemma ranked_ranks : map rank ms = ranks_from 1 (List.length cands).
Proof.
  unfold ms. rewrite rank_results_unfold.
  rewrite (enumerated_ranks _ 1).
  rewrite (Permutation_length (sorted_reverse_perm final_key results)).
  rewrite results_length. reflexivity.
Qed.

Lemma ranked_ties (s : Q) :
  map mr_candidate_id (filter (fun m => Qeq_bool (mr_final_score m) s) ms)
  = map (fun cd => candidate_id (fst cd))
        (filter (fun cd => Qeq_bool (final_score (snd cd)) s) (combine cands data)).
Proof.
  set (u := fun m : MatchResult => (mr_candidate_id m, mr_final_score m)).
  transitivity
    (map fst (filter (fun v : UUID * Q => Qeq_bool (snd v) s) (map u ms))).
  { rewrite filter_map_comm, map_map. reflexivity. }
  rewrite (ranked_fields u) by reflexivity.
  rewrite filter_map_comm, map_map. simpl.
  rewrite (sorted_reverse_stable final_key
             (fun x : scored => Qeq_bool (mr_final_score (snd (fst x))) s)).
  - unfold results. rewrite filter_map_comm, map_map. reflexivity.
  - intros x y Hx Hy. apply Qeq_bool_iff in Hx, Hy. unfold final_key.
    rewrite Hx, Hy. reflexivity.
Qed.

End Ranked.

(** Lines 388 to 391 on a list of results, whatever it holds: the matches are
    the results in descending order of final score, results of equal final
    score in the order they had, and the ranks read 1, 2, ..., N. *)
Lemma rank_results_orders_and_ranks (results : list scored) :
  let ms := matches_of (rank_results results) in
  Permutation (map mr_candidate_id ms)
              (map (fun x : scored => mr_candidate_id (snd (fst x))) results)
  /\ StronglySorted (fun a b => mr_final_score b <= mr_final_score a) ms
  /\ map rank ms = ranks_from 1 (List.length results)
  /\ forall s : Q,
       map mr_candidate_id (filter (fun m => Qeq_bool (mr_final_score m) s) ms)
       = map (fun x : scored => mr_candidate_id (snd (fst x)))
             (filter (fun x : scored => Qeq_bool (final_key x) s) results).
Proof.
  intro ms.
  assert (Hf : forall (B : Type) (f : MatchResult -> B),
             (forall m r, f (set_rank m r) = f m) ->
             map f ms
             = map (fun x : scored => f (snd (fst x))) (sorted_reverse final_key results)).
  { intros B f Hf. unfold ms. rewrite rank_results_unfold.
    apply enumerated_fields, Hf. }
  split; [|split; [|split]].
  - rewrite Hf by reflexivity. apply Permutation_map, sorted_reverse_perm.
  - apply (StronglySorted_map mr_final_score (fun x y => y <= x)).
    rewrite Hf by reflexivity.
    apply (StronglySorted_map (fun x : scored => mr_final_score (snd (fst x)))
             (fun x y => y <= x)).
    apply (sorted_reverse_sorted final_key).
  - unfold ms. rewrite rank_results_unfold, (enumerated_ranks _ 1).
    rewrite (Permutation_length (sorted_reverse_perm final_key results)).
    reflexivity.
  - intro s.
    set (u := fun m : MatchResult => (mr_candidate_id m, mr_final_score m)).
    transitivity
      (map fst (filter (fun v : UUID * Q => Qeq_bool (snd v) s) (map u ms))).
    { rewrite filter_map_comm, map_map. reflexivity. }
    rewrite (Hf _ u) by reflexivity.
    rewrite filter_map_comm, map_map. simpl.
    rewrite (sorted_reverse_stable final_key
               (fun x : scored => Qeq_bool (mr_final_score (snd (fst x))) s)).
    + reflexivity.
    + intros x y Hx Hy. apply Qeq_bool_iff in Hx, Hy. unfold final_key.
      rewrite Hx, Hy. reflexivity.
Qed.

(** The ranking of lines 388 to 393, in a namespace where the run returns: it
    has scored every candidate of the set; its matches are those candidates'
    results in descending order of final score, results of equal final score
    in the order of the candidate set; and the ranks, read down the list, are
    1, 2, ..., N for the N candidates. *)
Lemma run_matching_ranks_by_final_score extra db np_std pid cids fo out :
  run_matching extra db np_std pid cids fo = OK out ->
  let cands := selected_candidates db cids in
  exists project data,
    find (fun p => N.eqb (project_id p) pid) (projects db) = Some project
    /\ Forall2 (fun c d => calculate_match extra db c project None fo = OK d)
               cands data
    /\ total_candidates out = List.length cands
    /\ List.length (matches out) = List.length cands
    /\ Permutation (map mr_candidate_id (matches out)) (map candidate_id cands)
    /\ StronglySorted (fun a b => mr_final_score b <= mr_final_score a) (matches out)
    /\ map rank (matches out) = ranks_from 1 (List.length cands)
    /\ forall s : Q,
         map mr_candidate_id
             (filter (fun m => Qeq_bool (mr_final_score m) s) (matches out))
         = map (fun cd => candidate_id (fst cd))
               (filter (fun cd => Qeq_bool (final_score (snd cd)) s)
                       (combine cands data)).
Proof.
  intros H cands. unfold run_matching in H.
  destruct (find _ _) as [project|] eqn:Ep; [|discriminate].
  fold cands in H.
  destruct (matching_loop extra db project fo cands []) as [res|] eqn:El;
    simpl in H; [|discriminate].
  injection H as <-. simpl.
  apply matching_loop_inv in El. destruct El as (data & HF & ->).
  simpl app. fold (matches_of (rank_results (map (scored_of project) (combine cands data)))).
  pose proof (Forall2_length HF) as Hlen.
  exists project, data.
  split; [reflexivity|]. split; [exact HF|]. split; [reflexivity|].
  split; [apply ranked_length, Hlen|].
  split; [apply ranked_candidates, Hlen|].
  split; [apply ranked_sorted|].
  split; [apply ranked_ranks, Hlen|].
  intro s. apply ranked_ties.
Qed.

(** The three candidates of seed_data.py, with the name [Skill] bound. *)
Lemma run_matching_ranks_by_final_score_witness :
  exists out,
    run_matching ["Skill"] Scenario.seed_db Scenario.std_6dp 100%N None None = OK out
    /\ map mr_candidate_id (matches out) = [12%N; 11%N; 13%N]
    /\ map rank (matches out) = [Some 1%Z; Some 2%Z; Some 3%Z]
    /\ StronglySorted (fun a b => mr_final_score b <= mr_final_score a) (matches out).
Proof.
  destruct (run_matching ["Skill"] Scenario.seed_db Scenario.std_6dp 100%N None None)
    as [out|] eqn:E; [|vm_compute in E; discriminate].
  exists out. split; [reflexivity|].
  destruct (run_matching_ranks_by_final_score _ _ _ _ _ _ _ E)
    as (project & data & _ & _ & _ & _ & _ & Hs & Hr & _).
  split; [|split; [exact Hr | exact Hs]].
  vm_compute in E. injection E as <-. reflexivity.
Defined.

(** Equal final scores: the twins stay in the order of the candidate table,
    after the candidate with the higher score. *)
Example run_matching_keeps_ties_in_order :
  exists out,
    run_matching ["Skill"] Scenario.ties_db Scenario.std_6dp 100%N None None = OK out
    /\ map mr_candidate_id (matches out) = [12%N; 21%N; 22%N]
    /\ map mr_final_score (matches out) = [2153 # 25; 801 # 10; 801 # 10]
    /\ map rank (matches out) = [Some 1%Z; Some 2%Z; Some 3%Z].
Proof.
  eexists. split; [vm_compute; reflexivity|].
  repeat split; vm_compute; reflexivity.
Qed.

(** ** The cohort fairness metrics *)

Lemma dict_get_set_same {V : Type} (d : dict V) k v :
  dict_get (dict_set d k v) k = Some v.
Proof.
  induction d as [|[k' v'] d IH]; simpl.
  - rewrite String.eqb_refl. reflexivity.
  - destruct (String.eqb k k') eqn:E; simpl; rewrite E; [reflexivity | exact IH].
Qed.

Lemma dict_get_set_other {V : Type} (d : dict V) k k' v :
  k <> k' -> dict_get (dict_set d k v) k' = dict_get d k'.
Proof.
  intro Hne. induction d as [|[k0 v0] d IH]; simpl.
  - apply String.eqb_neq in Hne. rewrite String.eqb_sym, Hne. reflexivity.
  - destruct (String.eqb k k0) eqn:E; simpl.
    + apply String.eqb_eq in E. subst k0.
      apply String.eqb_neq in Hne. rewrite String.eqb_sym, Hne. reflexivity.
    + rewrite IH. reflexivity.
Qed.

Lemma dict_set_not_nil {V : Type} (d : dict V) k v : dict_set d k v <> [].
Proof. destruct d as [|[k' v'] d]; simpl; [|destruct (String.eqb k k')]; discriminate. Qed.

(** A grouping is empty exactly when no candidate has the attribute. *)
Lemma group_scores_nil attr (results : list scored) :
  group_scores attr results = []
  <-> Forall (fun x : scored => attr (fst (fst x)) = None) results.
Proof.
  unfold group_scores.
  set (step := fun (scores : dict (list Q)) (x : scored) => _).
  assert (Hgen : forall l acc,
            fold_left step l acc = []
            <-> acc = [] /\ Forall (fun x : scored => attr (fst (fst x)) = None) l).
  { induction l as [|[[c m] d] l IH]; intro acc; simpl.
    - split; [intro H; split; [exact H | constructor] | intros [H _]; exact H].
    - rewrite IH. unfold step. simpl.
      destruct (attr c) as [v|] eqn:Ea.
      + split.
        * intros [H _]. exfalso. revert H. apply dict_set_not_nil.
        * intros [_ H]. inversion H as [|? ? Hx]; subst. simpl in Hx. congruence.
      + split.
        * intros [H1 H2]. split; [exact H1|]. constructor; [exact Ea | exact H2].
        * intros [H1 H2]. split; [exact H1|]. inversion H2; assumption. }
  rewrite Hgen. split; [intros [_ H]; exact H | intro H; split; [reflexivity | exact H]].
Qed.

Lemma round3_one_minus_round3 x : round (1 - round x 3) 3 == 1 - round x 3.
Proof.
  apply (round_exact _ 3 (1000 - round_half_even (x * inject_Z (pow10 3)))).
  pose proof (round_has_decimals x 3) as H.
  unfold Zminus. rewrite inject_Z_plus, inject_Z_opp, <- H.
  change (inject_Z (pow10 3)) with 1000. change (inject_Z 1000) with 1000. ring.
Qed.

(** C8, as the code has it. For a non-empty list of results, the metric
    [overall_fairness_score] is 1 minus [socioeconomic_parity] when that metric
    is there, and 1 when it is not; it is not there exactly when no candidate
    has a socioeconomic status. *)
Theorem overall_fairness_score_from_parity np_std (results : list scored) :
  results <> [] ->
  let metrics := _calculate_fairness_metrics np_std results in
  (exists o,
      dict_get metrics "overall_fairness_score" = Some o
      /\ match dict_get metrics "socioeconomic_parity" with
         | Some parity => o == 1 - parity
         | None => o == 1
         end)
  /\ (dict_get metrics "socioeconomic_parity" = None
      <-> Forall (fun x : scored => socioeconomic_status (fst (fst x)) = None) results).
Proof.
  intros Hne metrics. subst metrics. unfold _calculate_fairness_metrics.
  destruct results as [|x0 rest]; [contradiction|].
  set (results := x0 :: rest).
  set (mg := match group_scores (fun c => option_map Gender_value (gender c)) results with
             | [] => []
             | _ => _
             end).
  assert (Hmg : dict_get mg "socioeconomic_parity" = None).
  { subst mg. destruct (group_scores _ results); [reflexivity|].
    destruct (Nat.ltb _ _); reflexivity. }
  pose proof (group_scores_nil
                (fun c => option_map SocioeconomicStatus_value (socioeconomic_status c))
                results) as Hnil.
  assert (Hattr : Forall (fun x : scored =>
                    option_map SocioeconomicStatus_value
                      (socioeconomic_status (fst (fst x))) = None) results
                  <-> Forall (fun x : scored =>
                        socioeconomic_status (fst (fst x)) = None) results).
  { split; apply Forall_impl; intros x Hx;
      destruct (socioeconomic_status (fst (fst x))); simpl in *; congruence. }
  clearbody mg.
  destruct (group_scores
              (fun c => option_map SocioeconomicStatus_value (socioeconomic_status c))
              results) as [|g ses_scores] eqn:Eses.
  - (* no candidate has a status *)
    rewrite (dict_get_set_other _ "overall_fairness_score" "socioeconomic_parity")
      by (intro E; discriminate E).
    rewrite Hmg. split.
    + eexists. split; [apply dict_get_set_same|].
      unfold dict_get_default. rewrite Hmg. reflexivity.
    + split; [intros _; apply Hattr, Hnil; reflexivity | reflexivity].
  - rewrite (dict_get_set_other _ "overall_fairness_score" "socioeconomic_parity")
      by (intro E; discriminate E).
    rewrite !dict_get_set_same. split.
    + eexists. split; [reflexivity|].
      unfold dict_get_default. rewrite dict_get_set_same.
      apply round3_one_minus_round3.
    + split; [discriminate|].
      intro H. apply Hattr, Hnil in H. discriminate.
Qed.

(** Two results, one for a candidate of low socioeconomic status and one for a
    candidate without a status. *)
Lemma overall_fairness_score_from_parity_witness :
  let metrics :=
    _calculate_fairness_metrics Scenario.std_6dp
      (map (scored_of Scenario.project)
           [(Scenario.maria, Scenario.anonymous_data);
            (Scenario.anonymous, Scenario.anonymous_data)]) in
  (exists o,
      dict_get metrics "overall_fairness_score" = Some o
      /\ match dict_get metrics "socioeconomic_parity" with
         | Some parity => o == 1 - parity
         | None => o == 1
         end)
  /\ (dict_get metrics "socioeconomic_parity" = None
      <-> Forall (fun x : scored => socioeconomic_status (fst (fst x)) = None)
            (map (scored_of Scenario.project)
               [(Scenario.maria, Scenario.anonymous_data);
                (Scenario.anonymous, Scenario.anonymous_data)])).
Proof.
  apply (overall_fairness_score_from_parity Scenario.std_6dp).
  simpl. discriminate.
Defined.

(** C8, as it is stated, fails: for one candidate without a socioeconomic
    status, [socioeconomic_parity] is left out and [overall_fairness_score]
    is 1, not 0. *)
Lemma overall_fairness_score_is_1_without_parity :
  let metrics :=
    _calculate_fairness_metrics Scenario.std_6dp [Scenario.anonymous_result] in
  dict_get metrics "socioeconomic_parity" = None
  /\ dict_get metrics "overall_fairness_score" = Some 1
  /\ ~ (exists o, dict_get metrics "overall_fairness_score" = Some o /\ o == 0).
Proof.
  split; [reflexivity|]. split; [reflexivity|].
  intros (o & Ho & Hz). vm_compute in Ho. injection Ho as <-. discriminate.
Qed.

(** ** Exceptions of the scorer *)

Lemma Skill_unbound : load_global [] "Skill" = Raise (NameError "Skill").
Proof. reflexivity. Qed.

Lemma Skill_bound : load_global ["Skill"] "Skill" = OK tt.
Proof. reflexivity. Qed.

Lemma get_skill_score_NameError db c name :
  _get_skill_score [] db c name = Raise (NameError "Skill").
Proof. reflexivity. Qed.

Lemma technical_score_NameError db cv rv p :
  _calculate_technical_score [] db cv rv p = OK 0
  \/ _calculate_technical_score [] db cv rv p = Raise (NameError "Skill").
Proof.
  unfold _calculate_technical_score.
  destruct rv as [|[name req] rv]; [left | right]; reflexivity.
Qed.

Lemma calculate_match_NameError db c p cw fairness :
  calculate_match [] db c p cw (Some fairness) = Raise (NameError "Skill").
Proof.
  unfold calculate_match. simpl bind.
  destruct (technical_score_NameError db (_build_candidate_vector db c p)
              (_build_requirement_vector db p) p) as [E|E];
    rewrite E; reflexivity.
Qed.

(** C7. The scorer does not complete on every valid candidate and project.
    The methods read the global name [Skill], which matching_engine.py does not
    import: in the module as it is written the scorer raises for every
    candidate and project, NameError unless the project's fairness
    configuration is refused first; so it does on a candidate and a project
    with no proficiency and no requirement rows. With the name bound, a project
    whose requirements all weigh 0 still makes it raise, ZeroDivisionError. *)
Theorem calculate_match_raises :
  (forall db c p cw cf,
      calculate_match [] db c p cw cf = Raise (NameError "Skill")
      \/ (cf = None
          /\ calculate_match [] db c p cw cf = Raise (ValidationError "FairnessConfig")))
  /\ calculate_match [] Scenario.bare_db Scenario.anonymous Scenario.project None None
     = Raise (NameError "Skill")
  /\ calculate_match ["Skill"] Scenario.zero_weight_db Scenario.candidate
       Scenario.zero_weight_project None None
     = Raise (ZeroDivisionError "Weights sum to zero, can't be normalized").
Proof.
  split; [|split; reflexivity].
  intros db c p cw [fairness|].
  - left. apply calculate_match_NameError.
  - destruct (FairnessConfig_of_json (fairness_config p)) as [fairness|e] eqn:E.
    + left. rewrite <- (calculate_match_NameError db c p cw fairness).
      unfold calculate_match. rewrite E. reflexivity.
    + right. split; [reflexivity|].
      unfold calculate_match. rewrite E.
      unfold FairnessConfig_of_json in E.
      destruct (_ && _) in E; [discriminate|]. injection E as <-. reflexivity.
Qed.

(** With the name bound, the defaults for missing rows: required level 80,
    proficiency 0, weight 1. *)
Example calculate_match_defaults :
  exists r,
    calculate_match ["Skill"] Scenario.bare_db Scenario.anonymous Scenario.project
      None None = OK r
    /\ technical_score r = 0
    /\ communication_score r = 0
    /\ skill_gaps r
       = [{| skill := "Python"; required := 80; actual := 0; gap := 80 |};
          {| skill := "ML"; required := 80; actual := 0; gap := 80 |};
          {| skill := "Communication"; required := 80; actual := 0; gap := 80 |}].
Proof. eexists. split; [vm_compute; reflexivity|]. repeat split. Qed.

(** C3. On the scenario of the specification (proficiencies Python 95, ML 88,
    Communication 78, three years of experience, low socioeconomic status,
    non-binary; requirements Python 90 at weight 1.5, ML 85 at weight 2,
    Communication 70 at weight 1; weights 0.6/0.2/0.1/0.1) the scorer of the
    module as it is written returns no score: it raises NameError for the name
    [Skill]. *)
Theorem scenario_raises_NameError :
  calculate_match [] Scenario.db Scenario.candidate Scenario.project None None
  = Raise (NameError "Skill").
Proof. reflexivity. Qed.

(** With the name [Skill] bound, the scenario has the scores the specification
    lists. *)
Lemma scenario_scores_with_Skill_bound :
  exists r,
    calculate_match ["Skill"] Scenario.db Scenario.candidate Scenario.project
      None None = OK r
    /\ technical_score r = 100
    /\ communication_score r = 78
    /\ leadership_score r = 0
    /\ experience_score r = 45
    /\ raw_score r = 801 # 10
    /\ fairness_adjustment r = 5%Z
    /\ final_score r = 851 # 10.
Proof. eexists. split; [vm_compute; reflexivity|]. repeat split. Qed.

(** ** The module as it is written *)

Lemma calculate_match_as_written db c p cw cf :
  calculate_match [] db c p cw cf = Raise (NameError "Skill")
  \/ (cf = None
      /\ calculate_match [] db c p cw cf = Raise (ValidationError "FairnessConfig")).
Proof.
  destruct cf as [fairness|].
  - left. apply calculate_match_NameError.
  - destruct (FairnessConfig_of_json (fairness_config p)) as [fairness|e] eqn:E.
    + left. rewrite <- (calculate_match_NameError db c p cw fairness).
      unfold calculate_match. rewrite E. reflexivity.
    + right. split; [reflexivity|].
      unfold calculate_match. rewrite E.
      unfold FairnessConfig_of_json in E.
      destruct (_ && _) in E; [discriminate|]. injection E as <-. reflexivity.
Qed.

(** C1. On a valid candidate and project, whatever the weights, the scorer of
    the module as it is written returns no score, inside [0, 100] or outside:
    it raises NameError for the name [Skill], which matching_engine.py reads
    and does not import, unless the project's fairness configuration is
    refused first. *)
Theorem valid_input_returns_no_score db c p cw cf :
  valid_session db -> valid_candidate c ->
  (forall r, calculate_match [] db c p cw cf <> OK r)
  /\ (calculate_match [] db c p cw cf = Raise (NameError "Skill")
      \/ (cf = None
          /\ calculate_match [] db c p cw cf
             = Raise (ValidationError "FairnessConfig"))).
Proof.
  intros _ _.
  pose proof (calculate_match_as_written db c p cw cf) as H.
  split; [|exact H].
  intros r E. rewrite E in H. destruct H as [H|[_ H]]; discriminate H.
Qed.

(** The scenario is valid input; with each weight 1 the scorer raises as it
    does with the weights of the project. *)
Lemma valid_input_returns_no_score_witness :
  valid_session Scenario.db
  /\ valid_candidate Scenario.candidate
  /\ calculate_match [] Scenario.db Scenario.candidate Scenario.project
       (Some Scenario.unit_weights) None
     = Raise (NameError "Skill").
Proof.
  assert (Hdb : valid_session Scenario.db)
    by (split; repeat constructor; simpl; try lia; discriminate).
  assert (Hc : valid_candidate Scenario.candidate)
    by (unfold valid_candidate; simpl; lia).
  split; [exact Hdb|]. split; [exact Hc|].
  destruct (proj2 (valid_input_returns_no_score Scenario.db Scenario.candidate
                     Scenario.project (Some Scenario.unit_weights) None Hdb Hc))
    as [H|[_ H]]; [exact H | discriminate H].
Defined.

(** C2. The bonus of the fairness adjuster is the sum of the amounts of the
    rules that fire: 3 for a candidate of low socioeconomic status when
    [socioeconomic_boost] is on, 2 for a female or non-binary candidate when
    [gender_parity] is on, 1 when [years_experience < 3] and [raw_score > 70]
    whatever the flags. It is never negative; switching [socioeconomic_boost]
    from on to off, everything else fixed, removes 3 exactly when the status is
    low. The final score, [min(100, raw_score + bonus)], is computed by the
    scorer at line 64, after the component scores: in the module as it is
    written the scorer raises NameError before that line for every candidate,
    project and fairness configuration, and returns no final score. *)
Theorem fairness_bonus_is_sum_of_triggered_rules :
  (forall (c : Candidate) (raw : Q) (config : FairnessConfig),
      let bonus := fst (_apply_fairness_constraints c raw config) in
      bonus = (socioeconomic_rule config c + gender_rule config c
               + early_career_rule c raw)%Z
      /\ (0 <= bonus)%Z
      /\ (fst (_apply_fairness_constraints c raw (with_socioeconomic_boost true config))
          - fst (_apply_fairness_constraints c raw (with_socioeconomic_boost false config))
          = match socioeconomic_status c with Some LOW => 3 | _ => 0 end)%Z)
  /\ (forall db c p cw (config : FairnessConfig),
         calculate_match [] db c p cw (Some config) = Raise (NameError "Skill")).
Proof.
  split.
  - intros c raw config bonus. subst bonus. split; [|split].
    + apply fairness_bonus_sum.
    + apply fairness_bonus_nonneg.
    + rewrite !fairness_bonus_sum.
      unfold socioeconomic_rule, gender_rule, with_socioeconomic_boost. simpl.
      destruct (socioeconomic_status c) as [[]|]; lia.
  - intros db c p cw config. apply calculate_match_NameError.
Qed.

Lemma matching_loop_first_raises extra db p fo c cands acc e :
  calculate_match extra db c p None fo = Raise e ->
  matching_loop extra db p fo (c :: cands) acc = Raise e.
Proof. intro H. simpl. rewrite H. reflexivity. Qed.

(** C5. A run of the module as it is written over one candidate or more, for
    a project that exists, does not reach the ranking of lines 388 to 393:
    scoring the first candidate raises NameError for the name [Skill], unless
    the project's fairness configuration is refused first, and the run
    returns no result and no rank. *)
Theorem run_matching_reaches_no_ranking db np_std pid cids fo :
  (exists p, In p (projects db) /\ project_id p = pid) ->
  selected_candidates db cids <> [] ->
  run_matching [] db np_std pid cids fo = Raise (NameError "Skill")
  \/ (fo = None
      /\ run_matching [] db np_std pid cids fo
         = Raise (ValidationError "FairnessConfig")).
Proof.
  intros Hp Hsel. apply find_project in Hp. destruct Hp as (p & Hp & _).
  unfold run_matching. rewrite Hp.
  destruct (selected_candidates db cids) as [|c cands]; [contradiction|].
  destruct (calculate_match_as_written db c p None fo) as [H|[Hfo H]];
    rewrite (matching_loop_first_raises _ _ _ _ _ _ _ _ H); [left | right; split];
    try reflexivity; exact Hfo.
Qed.

(** The three candidates of seed_data.py and its project. *)
Lemma run_matching_reaches_no_ranking_witness :
  selected_candidates Scenario.seed_db None
  = [Scenario.alex; Scenario.maria; Scenario.james]
  /\ run_matching [] Scenario.seed_db Scenario.std_6dp 100%N None None
     = Raise (NameError "Skill").
Proof.
  split; [reflexivity|].
  destruct (run_matching_reaches_no_ranking Scenario.seed_db Scenario.std_6dp
              100%N None None) as [H|[_ H]].
  - exists Scenario.project. split; [left; reflexivity | reflexivity].
  - discriminate.
  - exact H.
  - discriminate H.
Defined.

(** ** When the scorer returns *)

Lemma Qsum_pos (w : list Q) : w <> [] -> Forall (fun x => 0 < x) w -> 0 < Qsum w.
Proof.
  intros Hne Hw. induction Hw as [|x w Hx Hw IH]; [contradiction|].
  simpl. destruct w as [|y w].
  - simpl. lra.
  - assert (0 < Qsum (y :: w)) by (apply IH; discriminate). lra.
Qed.

Lemma technical_loop_returns extra db cv p items :
  load_global extra "Skill" = OK tt ->
  Forall (fun r => 0 < weight r) (project_skills db) ->
  forall scores weights,
    Forall (fun w => 0 < w) weights ->
    List.length scores = List.length weights ->
    exists scores' weights',
      technical_loop extra db cv p items scores weights = OK (scores', weights')
      /\ Forall (fun w => 0 < w) weights'
      /\ List.length scores' = List.length weights'.
Proof.
  intros HG Hps.
  induction items as [|[name req] items IH]; intros scores weights Hw Hlen; simpl.
  - exists scores, weights. repeat split; assumption.
  - unfold first_project_skills_named. rewrite HG. simpl.
    apply IH.
    + apply Forall_app. split; [exact Hw|]. constructor; [|constructor].
      destruct (find _ _) as [r|] eqn:E; [|lra].
      apply find_some in E. destruct E as [Hin _].
      rewrite Forall_forall in Hps. apply Hps, Hin.
    + rewrite !length_app, Hlen. reflexivity.
Qed.

Lemma calculate_match_returns extra db c p cw cf :
  load_global extra "Skill" = OK tt ->
  (cf = None -> exists f, FairnessConfig_of_json (fairness_config p) = OK f) ->
  Forall (fun r => 0 < weight r) (project_skills db) ->
  exists r, calculate_match extra db c p cw cf = OK r.
Proof.
  intros HG Hcf Hps. unfold calculate_match.
  assert (Hf : exists f, match cf with
                         | Some f => OK f
                         | None => FairnessConfig_of_json (fairness_config p)
                         end = OK f).
  { destruct cf as [f|]; [exists f; reflexivity | apply Hcf; reflexivity]. }
  destruct Hf as (f & ->). simpl bind.
  unfold _calculate_technical_score.
  destruct (technical_loop_returns extra db (_build_candidate_vector db c p) p
              (_build_requirement_vector db p) HG Hps [] [] (Forall_nil _) eq_refl)
    as (scores & weights & -> & Hw & Hlen).
  simpl bind. simpl fst. simpl snd.
  assert (Ht : exists t, match scores with
                         | [] => OK 0
                         | _ :: _ => np_average scores weights
                         end = OK t).
  { destruct scores as [|s scores]; [exists 0; reflexivity|].
    unfold np_average.
    assert (Hpos : 0 < Qsum weights).
    { apply Qsum_pos; [|exact Hw]. destruct weights; [discriminate Hlen | discriminate]. }
    destruct (Qeq_bool (Qsum weights) 0) eqn:E.
    - apply Qeq_bool_iff in E. rewrite E in Hpos. exfalso. apply (Qlt_irrefl _ Hpos).
    - eexists. reflexivity. }
  destruct Ht as (t & ->). simpl bind.
  unfold _get_skill_score, first_CandidateSkill_named. rewrite HG. simpl bind.
  destruct (_apply_fairness_constraints _ _ _) as [b m].
  eexists. reflexivity.
Qed.

Lemma run_matching_returns extra db np_std pid cids fo :
  load_global extra "Skill" = OK tt ->
  (exists p, In p (projects db) /\ project_id p = pid) ->
  (fo = None ->
   forall p, In p (projects db) ->
             exists f, FairnessConfig_of_json (fairness_config p) = OK f) ->
  Forall (fun r => 0 < weight r) (project_skills db) ->
  exists out, run_matching extra db np_std pid cids fo = OK out.
Proof.
  intros HG Hp Hfo Hps. apply find_project in Hp. destruct Hp as (p & Hp & _).
  unfold run_matching. rewrite Hp.
  destruct (matching_loop_returns extra db p fo (selected_candidates db cids))
    with (acc := @nil scored) as (res & ->).
  - apply Forall_forall. intros c _.
    apply calculate_match_returns; [exact HG | | exact Hps].
    intro E. apply (Hfo E). apply find_some in Hp. apply Hp.
  - eexists. reflexivity.
Qed.

(** ** The confidence score *)

Lemma py_max_spec a b : py_max a b == Qmax a b.
Proof.
  unfold py_max. destruct (Qgtb b a) eqn:E.
  - apply Qgtb_lt in E. symmetry. apply Q.max_r. apply Qlt_le_weak, E.
  - unfold Qgtb in E. apply negb_false_iff, Qle_bool_iff in E.
    symmetry. apply Q.max_l. exact E.
Qed.

(** Bounds with [n] decimals pass through [round(q, n)]. *)
Lemma round_lower_dec (k : Z) q n :
  inject_Z k / inject_Z (pow10 n) <= q ->
  inject_Z k / inject_Z (pow10 n) <= round q n.
Proof.
  intro H. rewrite round_unfold.
  pose proof (inject_Z_pow10_pos n) as HP.
  apply Qle_shift_div_l; [exact HP|].
  assert (E : inject_Z k / inject_Z (pow10 n) * inject_Z (pow10 n) == inject_Z k).
  { field. intro E. rewrite E in HP. apply (Qlt_irrefl _ HP). }
  rewrite E, <- Zle_Qle. apply round_half_even_lower.
  rewrite <- E. apply Qmult_le_compat_r; [exact H | apply Qlt_le_weak, HP].
Qed.

Lemma round_upper_dec (k : Z) q n :
  q <= inject_Z k / inject_Z (pow10 n) ->
  round q n <= inject_Z k / inject_Z (pow10 n).
Proof.
  intro H. rewrite round_unfold.
  pose proof (inject_Z_pow10_pos n) as HP.
  apply Qle_shift_div_r; [exact HP|].
  assert (E : inject_Z k / inject_Z (pow10 n) * inject_Z (pow10 n) == inject_Z k).
  { field. intro E. rewrite E in HP. apply (Qlt_irrefl _ HP). }
  rewrite E, <- Zle_Qle. apply round_half_even_upper.
  rewrite <- E. apply Qmult_le_compat_r; [exact H | apply Qlt_le_weak, HP].
Qed.

Lemma Qsquare_nonneg (a : Q) : 0 <= a * a.
Proof.
  destruct (Qlt_le_dec a 0) as [H|H].
  - assert (E : a * a == (- a) * (- a)) by ring.
    rewrite E. apply Qmult_le_0_compat; lra.
  - apply Qmult_le_0_compat; exact H.
Qed.

Lemma Qsum_squares_nonneg (l : list Q) (m : Q) :
  0 <= Qsum (map (fun x => (x - m) * (x - m)) l).
Proof.
  induction l as [|x l IH]; [apply Qle_refl|].
  change (0 <= (x - m) * (x - m) + Qsum (map (fun x => (x - m) * (x - m)) l)).
  set (rest := Qsum _) in *.
  assert (H : 0 <= (x - m) * (x - m)) by apply Qsquare_nonneg.
  set (sq := (x - m) * (x - m)) in *. clearbody sq rest. lra.
Qed.

Lemma np_var_nonneg (l : list Q) : 0 <= np_var l.
Proof.
  unfold np_var, np_mean. rewrite length_map.
  pose proof (Qsum_squares_nonneg l (Qsum l / inject_Z (Z.of_nat (List.length l)))) as H.
  destruct l as [|x l].
  - simpl. apply Qle_refl.
  - set (n := inject_Z (Z.of_nat (List.length (x :: l)))) in *.
    assert (Hn : 0 < n).
    { unfold n. change 0 with (inject_Z 0). rewrite <- Zlt_Qlt. simpl. lia. }
    apply Qle_shift_div_l; [exact Hn|]. lra.
Qed.

(** The mean of the two factors, from the variance of the components. *)
Lemma confidence_unfold (m : MatchResult) :
  _calculate_confidence m
  = round (np_mean [py_max 0 (1 - np_var [mr_technical_score m; mr_communication_score m;
                                           mr_leadership_score m; mr_experience_score m]
                                   / 1000);
                    9 # 10]) 3.
Proof. reflexivity. Qed.

Lemma mean_of_two (a b : Q) : np_mean [a; b] == (a + b) * (1 # 2).
Proof. unfold np_mean. simpl. field. Qed.

Lemma confidence_of_variance (v : Q) :
  0 <= v ->
  let c := round (np_mean [py_max 0 (1 - v / 1000); 9 # 10]) 3 in
  (45 # 100 <= c /\ c <= 95 # 100)
  /\ (v == 0 -> c = 19 # 20)
  /\ (1000 <= v -> c = 9 # 20).
Proof.
  intros Hv c. subst c.
  assert (Ex : v / 1000 == v * (1 # 1000)) by reflexivity.
  assert (Hf : py_max 0 (1 - v / 1000) == Qmax 0 (1 - v * (1 # 1000))).
  { rewrite py_max_spec, Ex. reflexivity. }
  split; [|split].
  - assert (H0 : 0 <= py_max 0 (1 - v / 1000)).
    { rewrite Hf. apply Q.le_max_l. }
    assert (H1 : py_max 0 (1 - v / 1000) <= 1).
    { rewrite Hf. apply Q.max_lub; clear - Hv; lra. }
    set (f := py_max 0 (1 - v / 1000)) in *. clearbody f.
    split.
    + apply (Qle_trans _ (inject_Z 450 / inject_Z (pow10 3))); [discriminate|].
      apply (round_lower_dec 450 _ 3). rewrite mean_of_two.
      change (inject_Z 450 / inject_Z (pow10 3)) with (450 # 1000).
      clear - H0. lra.
    + apply (Qle_trans _ (inject_Z 950 / inject_Z (pow10 3))); [|discriminate].
      apply (round_upper_dec 950 _ 3). rewrite mean_of_two.
      change (inject_Z 950 / inject_Z (pow10 3)) with (950 # 1000).
      clear - H1. lra.
  - intro Ev.
    assert (E : np_mean [py_max 0 (1 - v / 1000); 9 # 10] == 95 # 100).
    { rewrite mean_of_two, Hf, Ev, Q.max_r by (clear; lra). reflexivity. }
    rewrite (round_comp _ _ 3 E). reflexivity.
  - intro Hbig.
    assert (E : np_mean [py_max 0 (1 - v / 1000); 9 # 10] == 45 # 100).
    { rewrite mean_of_two, Hf, Q.max_l by (clear - Hbig; lra). reflexivity. }
    rewrite (round_comp _ _ 3 E). reflexivity.
Qed.

(** The confidence score of a match is between 0.45 and 0.95, whatever its
    scores; it is 0.95 when the four component scores are equal, and 0.45 when
    their variance is 1000 or more. *)
Theorem confidence_between_045_and_095 (m : MatchResult) :
  let components :=
    [mr_technical_score m; mr_communication_score m;
     mr_leadership_score m; mr_experience_score m] in
  (45 # 100 <= _calculate_confidence m /\ _calculate_confidence m <= 95 # 100)
  /\ (mr_communication_score m == mr_technical_score m ->
      mr_leadership_score m == mr_technical_score m ->
      mr_experience_score m == mr_technical_score m ->
      _calculate_confidence m = 19 # 20)
  /\ (1000 <= np_var components -> _calculate_confidence m = 9 # 20).
Proof.
  intro components. rewrite confidence_unfold. fold components.
  destruct (confidence_of_variance (np_var components) (np_var_nonneg components))
    as (Hb & H0 & H1).
  split; [exact Hb|]. split; [|exact H1].
  intros Hc Hl He. apply H0.
  unfold components, np_var, np_mean. simpl. rewrite Hc, Hl, He. field.
Qed.

(** Equal components, and components 100, 0, 0, 100, of variance 2500. *)
Lemma confidence_between_045_and_095_witness :
  _calculate_confidence (Scenario.result_with_components 80 80 80 80) = 19 # 20
  /\ _calculate_confidence (Scenario.result_with_components 100 0 0 100) = 9 # 20.
Proof.
  split.
  - apply (confidence_between_045_and_095
             (Scenario.result_with_components 80 80 80 80)); reflexivity.
  - apply (confidence_between_045_and_095
             (Scenario.result_with_components 100 0 0 100)).
    vm_compute. discriminate.
Defined.

(** ** The detail view *)

Lemma heatmap_of_gaps_map (gaps : list SkillGap) :
  heatmap_of_gaps gaps = map gap_cell gaps.
Proof.
  unfold heatmap_of_gaps.
  assert (Hgen : forall l acc,
            fold_left
              (fun heatmap g =>
                 (heatmap ++
                  [{| hm_skill := skill g;
                      hm_required := required g;
                      hm_actual := actual g;
                      hm_intensity :=
                        if Z.ltb 0 (required g)
                        then inject_Z (actual g) / inject_Z (required g)
                        else 0 |}])%list) l acc
            = (acc ++ map gap_cell l)%list).
  { induction l as [|g l IH]; intro acc; simpl.
    - rewrite app_nil_r. reflexivity.
    - rewrite IH, <- app_assoc. reflexivity. }
  apply (Hgen gaps []).
Qed.

Lemma heatmap_add_skills_map gaps candidate_skills required heatmap :
  heatmap_add_skills gaps candidate_skills required heatmap
  = (heatmap
     ++ map (plain_cell candidate_skills)
          (filter (fun s => negb (existsb (String.eqb (skill_name s)) (map skill gaps)))
                  required))%list.
Proof.
  unfold heatmap_add_skills. revert heatmap.
  induction required as [|s l IH]; intro heatmap; simpl.
  - rewrite app_nil_r. reflexivity.
  - rewrite IH. destruct (existsb _ _); simpl; [reflexivity|].
    rewrite <- app_assoc. reflexivity.
Qed.

Lemma candidate_skills_of_returns db rows :
  Forall (has_skill_row db) rows ->
  forall acc, exists d, candidate_skills_of db rows acc = inr d.
Proof.
  induction 1 as [|cs rows (s & Hin & Hid) _ IH]; intro acc; simpl.
  - exists acc. reflexivity.
  - destruct (find _ _) as [s'|] eqn:E; [apply IH|].
    exfalso. apply (find_none _ _ E) in Hin. rewrite Hid, N.eqb_refl in Hin.
    discriminate.
Qed.

Lemma candidate_skills_of_inv db rows :
  forall acc d, candidate_skills_of db rows acc = inr d ->
                Forall (has_skill_row db) rows.
Proof.
  induction rows as [|cs rows IH]; intros acc d H; simpl in H; [constructor|].
  destruct (find _ _) as [s|] eqn:E; [|discriminate].
  constructor; [|eapply IH; exact H].
  apply find_some in E. destruct E as [Hin Hid]. apply N.eqb_eq in Hid.
  exists s. split; assumption.
Qed.

Lemma candidate_skills_of_raises db rows :
  forall acc e, candidate_skills_of db rows acc = inl e ->
                e = AttributeError "'NoneType' object has no attribute 'name'".
Proof.
  induction rows as [|cs rows IH]; intros acc e H; simpl in H; [discriminate|].
  destruct (find _ _); [apply (IH _ _ H)|]. injection H as <-. reflexivity.
Qed.

(** [get_explanation_detail] raises ValueError exactly when no match result
    has the identifier. When one has, it returns exactly when the candidate
    and the project of the match are still there and every proficiency row of
    the candidate names a skill that is; otherwise it raises AttributeError. *)
Theorem get_explanation_detail_outcomes db match_results id :
  (get_explanation_detail db match_results id
   = inl (Engine (ValueError "Match result not found"))
   <-> forall r, In r match_results -> match_result_id r <> id)
  /\ ((exists d, get_explanation_detail db match_results id = inr d)
      <-> exists r c p,
            find (fun r => N.eqb (match_result_id r) id) match_results = Some r
            /\ find (fun c => N.eqb (candidate_id c) (mr_candidate_id (match_result r)))
                    (candidates db) = Some c
            /\ find (fun p => N.eqb (project_id p) (mr_project_id (match_result r)))
                    (projects db) = Some p
            /\ Forall (has_skill_row db) (proficiency_rows db c))
  /\ ((exists msg, get_explanation_detail db match_results id
                   = inl (AttributeError msg))
      \/ (exists d, get_explanation_detail db match_results id = inr d)
      \/ get_explanation_detail db match_results id
         = inl (Engine (ValueError "Match result not found"))).
Proof.
  unfold get_explanation_detail.
  destruct (find (fun r => N.eqb (match_result_id r) id) match_results) as [r|] eqn:Er.
  - fold (proficiency_rows db).
    assert (Hr : ~ (forall r, In r match_results -> match_result_id r <> id)).
    { intro H. apply find_some in Er. destruct Er as [Hin Hid].
      apply N.eqb_eq in Hid. apply (H r Hin Hid). }
    destruct (find _ (candidates db)) as [c|] eqn:Ec.
    + fold (proficiency_rows db c).
      destruct (candidate_skills_of db (proficiency_rows db c) []) as [e|cs] eqn:Ecs.
      * pose proof (candidate_skills_of_raises _ _ _ _ Ecs) as ->.
        split; [split; [discriminate | intro H; contradiction]|]. split.
        -- split; [intros (d & H); discriminate|].
           intros (r' & c' & p' & [= <-] & Hc' & _ & Hrows).
           rewrite Ec in Hc'. injection Hc' as <-.
           destruct (candidate_skills_of_returns db _ Hrows []) as (d & Hd).
           rewrite Hd in Ecs. discriminate.
        -- left. eexists. reflexivity.
      * destruct (find _ (projects db)) as [p|] eqn:Ep.
        -- split; [split; [discriminate | intro H; contradiction]|]. split.
           ++ split; [|intros _; eexists; reflexivity].
              intros _. exists r, c, p.
              split; [reflexivity|]. split; [exact Ec|]. split; [exact Ep|].
              eapply candidate_skills_of_inv. exact Ecs.
           ++ right. left. eexists. reflexivity.
        -- split; [split; [discriminate | intro H; contradiction]|]. split.
           ++ split; [intros (d & H); discriminate|].
              intros (r' & c' & p' & [= <-] & _ & H & _).
              rewrite Ep in H. discriminate.
           ++ left. eexists. reflexivity.
    + split; [split; [discriminate | intro H; contradiction]|]. split.
      * split; [intros (d & H); discriminate|].
        intros (r' & c' & p' & [= <-] & H & _). rewrite Ec in H. discriminate.
      * left. eexists. reflexivity.
  - split; [|split].
    + split; [|reflexivity]. intros _ r Hin Hid.
      apply (find_none _ _ Er) in Hin. rewrite Hid, N.eqb_refl in Hin. discriminate.
    + split; [intros (d & H); discriminate|].
      intros (r' & c' & p' & H & _). discriminate.
    + right. right. reflexivity.
Qed.

(** A match of the seed data is found; an unknown identifier is not. *)
Lemma get_explanation_detail_outcomes_witness :
  (exists d, get_explanation_detail Scenario.seed_db [james_row] 900%N = inr d)
  /\ get_explanation_detail Scenario.seed_db [james_row] 901%N
     = inl (Engine (ValueError "Match result not found")).
Proof.
  split.
  - apply (proj1 (proj2 (get_explanation_detail_outcomes Scenario.seed_db
                           [james_row] 900%N))).
    exists james_row, Scenario.james, Scenario.project.
    repeat split; try reflexivity.
    apply Forall_forall. intros cs Hin. simpl in Hin.
    destruct Hin as [<-|[<-|[<-|[]]]].
    + exists Scenario.Python. split; [simpl; tauto | reflexivity].
    + exists Scenario.ML. split; [simpl; tauto | reflexivity].
    + exists Scenario.Communication. split; [simpl; tauto | reflexivity].
  - apply (proj1 (get_explanation_detail_outcomes Scenario.seed_db
                    [james_row] 901%N)).
    intros r [<-|[]]. discriminate.
Defined.

Lemma partition_permutation {A : Type} (f : A -> bool) (l : list A) :
  Permutation (filter f l ++ filter (fun x => negb (f x)) l) l.
Proof.
  induction l as [|x l IH]; simpl; [constructor|].
  destruct (f x); simpl.
  - constructor. exact IH.
  - eapply perm_trans; [apply Permutation_sym, Permutation_middle|].
    constructor. exact IH.
Qed.

Lemma NoDup_map_injective {A B : Type} (f : A -> B) (l : list A) x y :
  NoDup (map f l) -> In x l -> In y l -> f x = f y -> x = y.
Proof.
  induction l as [|a l IH]; simpl; [contradiction|].
  intros Hnd Hx Hy Hf. inversion Hnd as [|? ? Hnotin Hnd']; subst.
  destruct Hx as [<-|Hx], Hy as [<-|Hy]; try reflexivity.
  - exfalso. apply Hnotin. rewrite Hf. apply in_map, Hy.
  - exfalso. apply Hnotin. rewrite <- Hf. apply in_map, Hx.
  - apply IH; assumption.
Qed.

Lemma existsb_eqb_In (name : string) (l : list string) :
  existsb (String.eqb name) l = true <-> In name l.
Proof.
  rewrite existsb_exists. split.
  - intros (x & Hin & E). apply String.eqb_eq in E. subst x. exact Hin.
  - intro Hin. exists name. split; [exact Hin | apply String.eqb_refl].
Qed.

Lemma skill_gaps_permutation db c p :
  Permutation (_calculate_skill_gaps db c p)
    (map (gap_entry db c p) (filter (falls_short db c p) (required_skills p))).
Proof.
  unfold _calculate_skill_gaps. rewrite gaps_loop_spec. apply sorted_reverse_perm.
Qed.

(** With distinct skill names, a skill has a recorded gap exactly when it falls
    short. *)
Lemma gap_recorded_iff_short db c p s :
  NoDup (map skill_name (required_skills p)) ->
  In s (required_skills p) ->
  existsb (String.eqb (skill_name s)) (map skill (_calculate_skill_gaps db c p))
  = falls_short db c p s.
Proof.
  intros Hnd Hs.
  pose proof (Permutation_map skill (skill_gaps_permutation db c p)) as Hperm.
  rewrite map_map in Hperm. simpl in Hperm.
  apply eq_true_iff_eq. rewrite existsb_eqb_In. split.
  - intro Hin. apply (Permutation_in _ Hperm) in Hin.
    apply in_map_iff in Hin. destruct Hin as (s' & Hname & Hs').
    apply filter_In in Hs'. destruct Hs' as [Hin' Hshort].
    rewrite <- (NoDup_map_injective skill_name _ s' s Hnd Hin' Hs Hname). exact Hshort.
  - intro Hshort. apply (Permutation_in _ (Permutation_sym Hperm)).
    apply in_map_iff. exists s. split; [reflexivity|].
    apply filter_In. split; assumption.
Qed.

Lemma gap_cell_intensity (g : SkillGap) :
  (actual g < required g)%Z -> hm_intensity (gap_cell g) < 1.
Proof.
  intro H. unfold gap_cell. simpl.
  destruct (Z.ltb 0 (required g)) eqn:E; [|reflexivity].
  apply Z.ltb_lt in E.
  apply Qlt_shift_div_r.
  - change 0 with (inject_Z 0). rewrite <- Zlt_Qlt. exact E.
  - rewrite Qmult_1_l, <- Zlt_Qlt. exact H.
Qed.

(** The heatmap of a match that the engine scored, for a project whose
    required skills have distinct names: one cell per required skill; the
    cells of the recorded gaps first, with an intensity below 1, then the
    cells of the other skills, with intensity 1 and the required level shown
    as 80. *)
Theorem heatmap_has_one_cell_per_required_skill db match_results id d r c p :
  get_explanation_detail db match_results id = inr d ->
  find (fun r => N.eqb (match_result_id r) id) match_results = Some r ->
  find (fun c => N.eqb (candidate_id c) (mr_candidate_id (match_result r)))
       (candidates db) = Some c ->
  find (fun p => N.eqb (project_id p) (mr_project_id (match_result r)))
       (projects db) = Some p ->
  mr_skill_gaps (match_result r) = _calculate_skill_gaps db c p ->
  NoDup (map skill_name (required_skills p)) ->
  Permutation (map hm_skill (competency_heatmap d))
              (map skill_name (required_skills p))
  /\ exists plain,
       competency_heatmap d
       = (map gap_cell (_calculate_skill_gaps db c p) ++ plain)%list
       /\ Forall (fun e => hm_intensity e < 1 /\ (hm_actual e < hm_required e)%Z)
                 (map gap_cell (_calculate_skill_gaps db c p))
       /\ Forall (fun e => hm_intensity e = 1 /\ hm_required e = 80%Z) plain
       /\ map hm_skill plain
          = map skill_name
              (filter (fun s => negb (falls_short db c p s)) (required_skills p)).
Proof.
  intros H Hr Hc Hp Hgaps Hnd.
  unfold get_explanation_detail in H. rewrite Hr, Hc, Hp in H.
  destruct (candidate_skills_of db _ []) as [e|cs]; [discriminate|].
  injection H as <-. simpl.
  rewrite heatmap_add_skills_map, heatmap_of_gaps_map, Hgaps.
  set (gaps := _calculate_skill_gaps db c p).
  assert (Hfilter :
            filter (fun s => negb (existsb (String.eqb (skill_name s)) (map skill gaps)))
                   (required_skills p)
            = filter (fun s => negb (falls_short db c p s)) (required_skills p)).
  { apply filter_ext_in. intros s Hs. unfold gaps.
    rewrite (gap_recorded_iff_short db c p s Hnd Hs). reflexivity. }
  rewrite Hfilter.
  assert (Hshort : Forall (fun g => (actual g < required g)%Z) gaps).
  { eapply Permutation_Forall;
      [apply Permutation_sym, skill_gaps_permutation|].
    apply Forall_forall. intros g Hg. apply in_map_iff in Hg.
    destruct Hg as (s & <- & Hs). apply filter_In in Hs. destruct Hs as [_ Hs].
    apply Z.ltb_lt in Hs. exact Hs. }
  split.
  - rewrite map_app, !map_map. simpl.
    eapply perm_trans; [|apply (Permutation_map skill_name),
                          (partition_permutation (falls_short db c p))].
    rewrite map_app. apply Permutation_app_tail.
    pose proof (Permutation_map skill (skill_gaps_permutation db c p)) as Hperm.
    rewrite map_map in Hperm. exact Hperm.
  - eexists. split; [reflexivity|]. split; [|split].
    + rewrite Forall_map. eapply Forall_impl; [|exact Hshort].
      intros g Hg. split; [apply gap_cell_intensity, Hg | exact Hg].
    + rewrite Forall_map. apply Forall_forall. intros s _. split; reflexivity.
    + rewrite map_map. reflexivity.
Qed.

(** The stored match of [james]: gaps in ML and Python, none in Communication. *)
Lemma heatmap_has_one_cell_per_required_skill_witness :
  exists d,
    get_explanation_detail Scenario.seed_db [james_row] 900%N = inr d
    /\ Permutation (map hm_skill (competency_heatmap d))
                   ["Python"; "ML"; "Communication"]
    /\ map hm_skill (competency_heatmap d) = ["ML"; "Python"; "Communication"].
Proof.
  destruct (get_explanation_detail Scenario.seed_db [james_row] 900%N)
    as [e|d] eqn:E; [vm_compute in E; discriminate|].
  exists d. split; [reflexivity|]. split.
  - apply (heatmap_has_one_cell_per_required_skill Scenario.seed_db
             [james_row] 900%N d james_row Scenario.james
             Scenario.project E);
      try reflexivity.
    simpl. repeat constructor; simpl; intuition discriminate.
  - vm_compute in E. injection E as <-. reflexivity.
Defined.

(** ** The skill vectors *)

Lemma dict_set_keys {V W : Type} (d : dict V) (d' : dict W) k v w :
  map fst d = map fst d' -> map fst (dict_set d k v) = map fst (dict_set d' k w).
Proof.
  revert d'. induction d as [|[k0 v0] d IH]; intros [|[k1 w1] d'] H; simpl in *;
    try discriminate; [reflexivity|].
  injection H as <- H. destruct (String.eqb k k0); simpl; f_equal; auto.
Qed.

Lemma dict_set_keys_In {V : Type} (d : dict V) k v k' :
  In k' (map fst (dict_set d k v)) <-> k' = k \/ In k' (map fst d).
Proof.
  induction d as [|[k0 v0] d IH]; simpl.
  - intuition.
  - destruct (String.eqb k k0) eqn:E; simpl.
    + apply String.eqb_eq in E. subst k0. intuition.
    + rewrite IH. intuition.
Qed.

Lemma dict_set_NoDup {V : Type} (d : dict V) k v :
  NoDup (map fst d) -> NoDup (map fst (dict_set d k v)).
Proof.
  induction d as [|[k0 v0] d IH]; simpl; intro H.
  - constructor; [intros [] | constructor].
  - inversion H as [|? ? Hnotin Hnd]; subst.
    destruct (String.eqb k k0) eqn:E; simpl.
    + constructor; assumption.
    + constructor; [|apply IH, Hnd].
      rewrite dict_set_keys_In. intros [->|Hin]; [|contradiction].
      rewrite String.eqb_refl in E. discriminate.
Qed.

Lemma dict_get_of_In {V : Type} (d : dict V) k v :
  NoDup (map fst d) -> In (k, v) d -> dict_get d k = Some v.
Proof.
  induction d as [|[k0 v0] d IH]; simpl; intros Hnd Hin; [contradiction|].
  inversion Hnd as [|? ? Hnotin Hnd']; subst.
  destruct Hin as [[= -> ->]|Hin].
  - rewrite String.eqb_refl. reflexivity.
  - destruct (String.eqb k k0) eqn:E; [|apply IH; assumption].
    apply String.eqb_eq in E. subst k0.
    exfalso. apply Hnotin. apply (in_map fst) in Hin. exact Hin.
Qed.

(** The two vectors, built side by side over a list of skills. *)
Lemma vectors_side_by_side db c p (P : Z -> Z -> Prop) (l : list Skill) :
  Forall (fun s => P (actual_level_of db c s) (required_level_of db p s)) l ->
  forall cv rv,
    map fst cv = map fst rv -> NoDup (map fst rv) ->
    (forall k r, dict_get rv k = Some r -> exists a, dict_get cv k = Some a /\ P a r) ->
    let cv' :=
      fold_left
        (fun vector skill_req =>
           let proficiency :=
             first_CandidateSkill db (candidate_id c) (skill_id skill_req) in
           dict_set vector (skill_name skill_req)
             match proficiency with
             | Some p => proficiency_level p
             | None => 0%Z
             end) l cv in
    let rv' :=
      fold_left
        (fun vector skill =>
           let req_level := first_project_skills db (project_id p) (skill_id skill) in
           dict_set vector (skill_name skill)
             match req_level with
             | Some r => required_level r
             | None => 80%Z
             end) l rv in
    map fst cv' = map fst rv' /\ NoDup (map fst rv')
    /\ (forall k, In k (map fst rv') <-> In k (map fst rv) \/ In k (map skill_name l))
    /\ (forall k r, dict_get rv' k = Some r -> exists a, dict_get cv' k = Some a /\ P a r).
Proof.
  induction 1 as [|s l Hs Hl IH]; intros cv rv Hk Hnd Hrel; simpl.
  - repeat split; try assumption; intuition.
  - specialize (IH
      (dict_set cv (skill_name s) (actual_level_of db c s))
      (dict_set rv (skill_name s) (required_level_of db p s))).
    destruct IH as (I1 & I2 & I3 & I4).
    + apply dict_set_keys, Hk.
    + apply dict_set_NoDup, Hnd.
    + intros k r Hget.
      destruct (String.eqb (skill_name s) k) eqn:E.
      * apply String.eqb_eq in E. subst k.
        rewrite dict_get_set_same in Hget. injection Hget as <-.
        exists (actual_level_of db c s). split; [apply dict_get_set_same | exact Hs].
      * apply String.eqb_neq in E.
        rewrite dict_get_set_other in Hget by exact E.
        rewrite dict_get_set_other by exact E. apply Hrel, Hget.
    + split; [exact I1|]. split; [exact I2|]. split; [|exact I4].
      intro k. rewrite I3, dict_set_keys_In. intuition.
Qed.

Lemma vectors_related db c p (P : Z -> Z -> Prop) :
  Forall (fun s => P (actual_level_of db c s) (required_level_of db p s))
         (required_skills p) ->
  let cv := _build_candidate_vector db c p in
  let rv := _build_requirement_vector db p in
  map fst cv = map fst rv /\ NoDup (map fst rv)
  /\ (forall k, In k (map fst rv) <-> In k (map skill_name (required_skills p)))
  /\ (forall k r, dict_get rv k = Some r -> exists a, dict_get cv k = Some a /\ P a r).
Proof.
  intros H cv rv.
  assert (H0 : forall k r, dict_get (@nil (string * Z)) k = Some r ->
                           exists a, dict_get (@nil (string * Z)) k = Some a /\ P a r)
    by (intros k r Hd; discriminate Hd).
  destruct (vectors_side_by_side db c p P (required_skills p) H [] []
              eq_refl (NoDup_nil _) H0) as (I1 & I2 & I3 & I4).
  split; [exact I1|]. split; [exact I2|]. split; [|exact I4].
  intro k. destruct (I3 k) as [J1 J2]. split.
  - intro Hk. destruct (J1 Hk) as [[]|Hin]. exact Hin.
  - intro Hk. apply J2. right. exact Hk.
Qed.

(** The candidate vector and the requirement vector have the same keys, in the
    same order: the names of the required skills, each once. A lookup in the
    candidate vector of a key of the requirement vector never falls back on
    its default. *)
Theorem vectors_have_the_same_keys db c p :
  let cv := _build_candidate_vector db c p in
  let rv := _build_requirement_vector db p in
  map fst cv = map fst rv
  /\ NoDup (map fst rv)
  /\ (forall k, In k (map fst rv) <-> In k (map skill_name (required_skills p)))
  /\ (forall k r, In (k, r) rv -> exists a, dict_get cv k = Some a).
Proof.
  intros cv rv.
  destruct (vectors_related db c p (fun _ _ => True)) as (I1 & I2 & I3 & I4).
  { apply Forall_forall. intros; exact I. }
  split; [exact I1|]. split; [exact I2|]. split; [exact I3|].
  intros k r Hin. apply (dict_get_of_In _ _ _ I2) in Hin.
  destruct (I4 k r Hin) as (a & Ha & _). exists a. exact Ha.
Qed.

(** ** A project without required skills *)

(** For a project without required skills the technical score is 0 and the
    gap list is empty, whatever the candidate's proficiencies, in every
    namespace. As soon as the project requires a skill, the technical scorer
    of the module as it is written raises NameError. *)
Theorem technical_score_without_requirements db c p :
  let cv := _build_candidate_vector db c p in
  let rv := _build_requirement_vector db p in
  (required_skills p = [] ->
   (forall extra, _calculate_technical_score extra db cv rv p = OK 0)
   /\ _calculate_skill_gaps db c p = [])
  /\ (required_skills p <> [] ->
      _calculate_technical_score [] db cv rv p = Raise (NameError "Skill")).
Proof.
  intros cv rv. split.
  - intro Hreq. split.
    + intro extra. subst cv rv.
      unfold _calculate_technical_score, _build_requirement_vector.
      rewrite Hreq. reflexivity.
    + unfold _calculate_skill_gaps, gaps_loop. rewrite Hreq. reflexivity.
  - intro Hne.
    destruct (vectors_related db c p (fun _ _ => True)) as (_ & _ & Hkeys & _).
    { apply Forall_forall. intros; exact I. }
    subst cv rv.
    destruct (_build_requirement_vector db p) as [|[name req] items].
    + exfalso. destruct (required_skills p) as [|s0 l]; [contradiction|].
      apply (Hkeys (skill_name s0)). left. reflexivity.
    + reflexivity.
Qed.

(** The module as it is written: a project that requires no skill, and the
    project of the scenario. *)
Lemma technical_score_without_requirements_witness :
  _calculate_technical_score [] Scenario.db
    (_build_candidate_vector Scenario.db Scenario.candidate Scenario.open_project)
    (_build_requirement_vector Scenario.db Scenario.open_project)
    Scenario.open_project = OK 0
  /\ _calculate_skill_gaps Scenario.db Scenario.candidate Scenario.open_project = []
  /\ _calculate_technical_score [] Scenario.db
       (_build_candidate_vector Scenario.db Scenario.candidate Scenario.project)
       (_build_requirement_vector Scenario.db Scenario.project)
       Scenario.project = Raise (NameError "Skill").
Proof.
  destruct (technical_score_without_requirements Scenario.db Scenario.candidate
              Scenario.open_project) as [H0 _].
  destruct (technical_score_without_requirements Scenario.db Scenario.candidate
              Scenario.project) as [_ H1].
  destruct (H0 eq_refl) as [Ht Hg].
  split; [apply Ht|]. split; [exact Hg|].
  apply H1. discriminate.
Defined.

(** ** What the scorer can raise *)

Lemma load_global_outcomes extra name :
  load_global extra name = OK tt \/ load_global extra name = Raise (NameError name).
Proof. unfold load_global. destruct (existsb _ _); [left | right]; reflexivity. Qed.

Lemma technical_loop_raises extra db cv p items :
  forall scores weights e,
    technical_loop extra db cv p items scores weights = Raise e ->
    e = NameError "Skill".
Proof.
  induction items as [|[name req] items IH]; intros scores weights e H; simpl in H.
  - discriminate.
  - unfold first_project_skills_named in H.
    destruct (load_global_outcomes extra "Skill") as [E|E]; rewrite E in H; simpl in H.
    + apply (IH _ _ _ H).
    + injection H as <-. reflexivity.
Qed.

Lemma calculate_match_raise_cases extra db c p cw cf :
  match calculate_match extra db c p cw cf with
  | OK _ => True
  | Raise e =>
      e = NameError "Skill"
      \/ (cf = None /\ e = ValidationError "FairnessConfig")
      \/ e = ZeroDivisionError "Weights sum to zero, can't be normalized"
  end.
Proof.
  unfold calculate_match.
  destruct (match cf with Some f => OK f | None => _ end) as [fairness|e] eqn:Ef;
    cbn [bind].
  2:{ right. left. destruct cf as [f|]; [discriminate|]. split; [reflexivity|].
      unfold FairnessConfig_of_json in Ef.
      destruct (_ && _) in Ef; [discriminate|]. injection Ef as <-. reflexivity. }
  destruct (_calculate_technical_score _ _ _ _ _) as [t|e] eqn:Et; cbn [bind].
  2:{ unfold _calculate_technical_score in Et.
      destruct (technical_loop _ _ _ _ _ _ _) as [[scores weights]|e'] eqn:El;
        cbn [bind fst snd] in Et.
      - destruct scores as [|s scores]; [discriminate|].
        change (np_average (s :: scores) weights = Raise e) in Et.
        unfold np_average in Et. destruct (Qeq_bool _ _); [|discriminate].
        injection Et as <-. right. right. reflexivity.
      - injection Et as <-. left. eapply technical_loop_raises, El. }
  unfold _get_skill_score, first_CandidateSkill_named.
  destruct (load_global_outcomes extra "Skill") as [E|E]; rewrite E; cbn [bind].
  - destruct (_apply_fairness_constraints _ _ _). exact I.
  - left. reflexivity.
Qed.

(** ** The mitigation log *)

Lemma fairness_rules_upper (c : Candidate) (raw : Q) (config : FairnessConfig) :
  (socioeconomic_rule config c <= 3)%Z /\ (gender_rule config c <= 2)%Z
  /\ (early_career_rule c raw <= 1)%Z.
Proof.
  unfold socioeconomic_rule, gender_rule, early_career_rule.
  destruct (socioeconomic_boost config), (socioeconomic_status c) as [[]|],
           (gender_parity config), (gender c) as [[]|];
    destruct (Z_lt_dec _ _); try destruct (Qlt_le_dec _ _); lia.
Qed.

Lemma mitigations_nil_iff (c : Candidate) (raw : Q) (config : FairnessConfig) :
  snd (_apply_fairness_constraints c raw config) = []
  <-> fst (_apply_fairness_constraints c raw config) = 0%Z.
Proof.
  unfold _apply_fairness_constraints.
  destruct (socioeconomic_boost config), (socioeconomic_status c) as [[]|],
           (gender_parity config), (gender c) as [[]|];
    simpl; destruct (Z.ltb _ _ && Qgtb _ _); simpl;
    split; intro H; try reflexivity; discriminate H.
Qed.

(** The adjuster logs one message per rule that fires, in the order of the
    rules: the bonus is at most 6, the log has at most three messages and is
    empty exactly when the bonus is 0; when the socioeconomic rule fires its
    message is the first of the log. *)
Theorem mitigations_follow_the_bonus (c : Candidate) (raw : Q) (config : FairnessConfig) :
  let bonus := fst (_apply_fairness_constraints c raw config) in
  let mitigations := snd (_apply_fairness_constraints c raw config) in
  (0 <= bonus <= 6)%Z
  /\ (List.length mitigations <= 3)%nat
  /\ (mitigations = [] <-> bonus = 0%Z)
  /\ (socioeconomic_boost config = true ->
      socioeconomic_status c = Some LOW ->
      exists rest,
        mitigations
        = "Socioeconomic opportunity boost applied (+3%) for candidate from low SES background"
          :: rest).
Proof.
  intros bonus mitigations. subst bonus mitigations.
  split; [|split; [|split]].
  - rewrite fairness_bonus_sum.
    pose proof (fairness_rules_nonneg c raw config).
    pose proof (fairness_rules_upper c raw config). lia.
  - unfold _apply_fairness_constraints.
    destruct (socioeconomic_boost config), (socioeconomic_status c) as [[]|],
             (gender_parity config), (gender c) as [[]|];
      simpl; destruct (Z.ltb _ _ && Qgtb _ _); simpl; lia.
  - apply mitigations_nil_iff.
  - intros Hb Hs. unfold _apply_fairness_constraints. rewrite Hb, Hs.
    destruct (gender_parity config), (gender c) as [[]|];
      simpl; destruct (Z.ltb _ _ && Qgtb _ _); simpl; eexists; reflexivity.
Qed.

(** The candidate of test_matching.py: female, low status, two years. *)
Lemma mitigations_follow_the_bonus_witness :
  exists rest,
    snd (_apply_fairness_constraints Scenario.maria 0
           {| demographic_parity_threshold := 8 # 10;
              equal_opportunity_weight := 75 # 100;
              socioeconomic_boost := true;
              gender_parity := true;
              blind_screening := false |})
    = "Socioeconomic opportunity boost applied (+3%) for candidate from low SES background"
      :: rest.
Proof.
  apply (mitigations_follow_the_bonus Scenario.maria 0); reflexivity.
Defined.

(** ** The entries of an explanation list *)

Lemma explanation_categories (c : Candidate) (t cm ld ex : Q)
    (gaps : list SkillGap) (fb : Z) (mits : list string) :
  map category (_generate_explanations c t cm ld ex gaps fb mits)
  = ([technical_category t]
     ++ (if Qgeb cm 85 then ["Communication"] else [])
     ++ (if Qgeb ld 80 then ["Leadership"] else [])
     ++ match gaps with [] => [] | _ :: _ => ["Development Opportunity"] end
     ++ (if Z.ltb 0 fb then ["Equity Adjustment"] else [])
     ++ (if Z.leb 5 (years_experience c) then ["Experience"] else []))%list.
Proof.
  rewrite <- technical_category_test. unfold _generate_explanations.
  destruct (Qgeb t 85); [|destruct (Qgeb t 70)];
    destruct (Qgeb cm 85), (Qgeb ld 80), gaps,
             (Z.ltb 0 fb), (Z.leb 5 (years_experience c));
    reflexivity.
Qed.

Lemma technical_category_cases (t : Q) :
  technical_category t = "Technical Gap"
  \/ technical_category t = "Technical Competency"
  \/ technical_category t = "Technical Excellence".
Proof.
  unfold technical_category.
  destruct (Qlt_le_dec t 70); [tauto|]. destruct (Qlt_le_dec t 85); tauto.
Qed.

Ltac category_cases t :=
  rewrite explanation_categories;
  destruct (technical_category_cases t) as [-> | [-> | ->]];
  repeat match goal with
         | |- context [if ?b then _ else _] => destruct b eqn:?
         | |- context [match ?l with [] => _ | _ :: _ => _ end] => destruct l eqn:?
         end;
  simpl; split; intro; try tauto; try discriminate; try congruence;
  repeat match goal with
         | H : _ \/ _ |- _ => destruct H
         | H : False |- _ => destruct H
         | H : @eq string _ _ |- _ => discriminate H
         end.

Section ExplanationCategories.

Variable c : Candidate.
Variable t : Q.
Variable cm : Q.
Variable ld : Q.
Variable ex : Q.
Variable gaps : list SkillGap.
Variable fb : Z.
Variable mits : list string.

Let cats := map category (_generate_explanations c t cm ld ex gaps fb mits).

Lemma communication_entry : In "Communication" cats <-> Qgeb cm 85 = true.
Proof. unfold cats. category_cases t. Qed.

Lemma leadership_entry : In "Leadership" cats <-> Qgeb ld 80 = true.
Proof. unfold cats. category_cases t. Qed.

Lemma gap_entry_present : In "Development Opportunity" cats <-> gaps <> [].
Proof. unfold cats. category_cases t. Qed.

Lemma equity_entry : In "Equity Adjustment" cats <-> Z.ltb 0 fb = true.
Proof. unfold cats. category_cases t. Qed.

Lemma experience_entry :
  In "Experience" cats <-> Z.leb 5 (years_experience c) = true.
Proof. unfold cats. category_cases t. Qed.

Lemma explanations_at_most_6 :
  (List.length (_generate_explanations c t cm ld ex gaps fb mits) <= 6)%nat.
Proof.
  rewrite <- (length_map category), explanation_categories.
  destruct (Qgeb cm 85), (Qgeb ld 80), gaps, (Z.ltb 0 fb),
           (Z.leb 5 (years_experience c)); simpl; lia.
Qed.

End ExplanationCategories.

(** The explanation generator adds each entry on its own condition: a
    "Development Opportunity" entry exactly when the gap list it is given is
    not empty, an "Equity Adjustment" entry exactly when the fairness bonus is
    positive, an "Experience" entry exactly from five years of experience, a
    "Communication" entry exactly from a communication score of 85 and a
    "Leadership" entry exactly from a leadership score of 80; and there are
    at most six entries. *)
Theorem explanations_follow_their_conditions
    (c : Candidate) (t cm ld ex : Q) (gaps : list SkillGap) (fb : Z)
    (mits : list string) :
  let cats := map category (_generate_explanations c t cm ld ex gaps fb mits) in
  (In "Development Opportunity" cats <-> gaps <> [])
  /\ (In "Equity Adjustment" cats <-> (0 < fb)%Z)
  /\ (In "Experience" cats <-> (5 <= years_experience c)%Z)
  /\ (In "Communication" cats <-> 85 <= cm)
  /\ (In "Leadership" cats <-> 80 <= ld)
  /\ (List.length (_generate_explanations c t cm ld ex gaps fb mits) <= 6)%nat.
Proof.
  intro cats. subst cats.
  split; [apply gap_entry_present|].
  split; [rewrite equity_entry; apply Z.ltb_lt|].
  split; [rewrite experience_entry; apply Z.leb_le|].
  split; [rewrite communication_entry; unfold Qgeb; apply Qle_bool_iff|].
  split; [rewrite leadership_entry; unfold Qgeb; apply Qle_bool_iff|].
  apply explanations_at_most_6.
Qed.

(** The call of test_matching.py: scores 75, 80, 70 and 60, no gap, a bonus
    of 2. *)
Lemma explanations_follow_their_conditions_witness :
  let cats :=
    map category
        (_generate_explanations Scenario.maria 75 80 70 60 [] 2 ["Test adjustment"]) in
  In "Equity Adjustment" cats
  /\ ~ In "Development Opportunity" cats
  /\ ~ In "Communication" cats.
Proof.
  destruct (explanations_follow_their_conditions Scenario.maria 75 80 70 60 [] 2
              ["Test adjustment"]) as (Hgap & Heq & _ & Hcm & _).
  split; [apply Heq; lia|].
  split.
  - intro H. apply Hgap in H. apply H. reflexivity.
  - intro H. apply Hcm in H. revert H. vm_compute. intro H. apply H. reflexivity.
Defined.

(** ** What a run raises *)

Lemma matching_loop_raises extra db p fo cands :
  forall acc e,
    matching_loop extra db p fo cands acc = Raise e ->
    exists c, In c cands /\ calculate_match extra db c p None fo = Raise e.
Proof.
  induction cands as [|c cands IH]; intros acc e H; simpl in H; [discriminate|].
  destruct (calculate_match extra db c p None fo) as [d|e'] eqn:E; simpl in H.
  - destruct (IH _ _ H) as (c' & Hin & Hc'). exists c'. split; [right|]; assumption.
  - injection H as <-. exists c. split; [left; reflexivity | exact E].
Qed.

Lemma find_project_none db pid :
  (forall p, In p (projects db) -> project_id p <> pid) <->
  find (fun p => N.eqb (project_id p) pid) (projects db) = None.
Proof.
  split.
  - intro H. destruct (find _ _) as [p|] eqn:E; [|reflexivity].
    apply find_some in E. destruct E as [Hin Hid]. apply N.eqb_eq in Hid.
    exfalso. apply (H p Hin Hid).
  - intros E p Hin Hid. apply (find_none _ _ E) in Hin.
    rewrite Hid, N.eqb_refl in Hin. discriminate.
Qed.

Lemma calculate_match_with_project_config extra db c p cw f :
  FairnessConfig_of_json (fairness_config p) = OK f ->
  calculate_match extra db c p cw None = calculate_match extra db c p cw (Some f).
Proof. intro E. unfold calculate_match. rewrite E. reflexivity. Qed.

Lemma FairnessConfig_of_json_raises d e :
  FairnessConfig_of_json d = Raise e -> e = ValidationError "FairnessConfig".
Proof.
  unfold FairnessConfig_of_json. destruct (_ && _); [discriminate|].
  intros [= <-]. reflexivity.
Qed.

(** The scorer raises an instance of ValueError only for a project
    configuration that is refused. *)
Lemma calculate_match_ValueError extra db c p cw cf e :
  calculate_match extra db c p cw cf = Raise e -> is_ValueError e = true ->
  cf = None
  /\ FairnessConfig_of_json (fairness_config p) = Raise (ValidationError "FairnessConfig").
Proof.
  intros H He.
  assert (Hno : forall f, calculate_match extra db c p cw (Some f) <> Raise e).
  { intros f Hf.
    pose proof (calculate_match_raise_cases extra db c p cw (Some f)) as Hc.
    rewrite Hf in Hc. destruct Hc as [->|[[Hc _]| ->]]; discriminate. }
  destruct cf as [f|]; [exfalso; apply (Hno f H)|].
  split; [reflexivity|].
  destruct (FairnessConfig_of_json (fairness_config p)) as [f|e'] eqn:E.
  - exfalso. apply (Hno f).
    rewrite <- (calculate_match_with_project_config extra db c p cw f E). exact H.
  - f_equal. apply (FairnessConfig_of_json_raises _ _ E).
Qed.

(** What the handler [except ValueError] of the endpoint catches from a run:
    the ValueError of a project that does not exist, and the validation error of the project's stored fairness configuration, an
    instance of ValueError too, which is raised when the project exists, a
    candidate is selected and no override is given. A run of the module as
    it is written raises an instance of ValueError in these two cases only. *)
Theorem run_matching_ValueError_cases db np_std pid cids fo :
  ((exists e, run_matching [] db np_std pid cids fo = Raise e
              /\ is_ValueError e = true)
   <-> (forall p, In p (projects db) -> project_id p <> pid)
       \/ (exists p,
              find (fun p => N.eqb (project_id p) pid) (projects db) = Some p
              /\ selected_candidates db cids <> []
              /\ fo = None
              /\ FairnessConfig_of_json (fairness_config p)
                 = Raise (ValidationError "FairnessConfig")))
  /\ ((forall p, In p (projects db) -> project_id p <> pid) ->
      exists msg, run_matching [] db np_std pid cids fo = Raise (ValueError msg))
  /\ (forall p,
        find (fun p => N.eqb (project_id p) pid) (projects db) = Some p ->
        selected_candidates db cids <> [] ->
        fo = None ->
        FairnessConfig_of_json (fairness_config p)
        = Raise (ValidationError "FairnessConfig") ->
        run_matching [] db np_std pid cids fo
        = Raise (ValidationError "FairnessConfig")).
Proof.
  assert (Hrefused : forall p,
             find (fun p => N.eqb (project_id p) pid) (projects db) = Some p ->
             selected_candidates db cids <> [] ->
             fo = None ->
             FairnessConfig_of_json (fairness_config p)
             = Raise (ValidationError "FairnessConfig") ->
             run_matching [] db np_std pid cids fo
             = Raise (ValidationError "FairnessConfig")).
  { intros p Hp Hsel -> Hcfg. unfold run_matching. rewrite Hp.
    destruct (selected_candidates db cids) as [|c cands]; [contradiction|].
    rewrite (matching_loop_first_raises [] db p None c cands []
               (ValidationError "FairnessConfig")); [reflexivity|].
    unfold calculate_match. rewrite Hcfg. reflexivity. }
  assert (Hnone : (forall p, In p (projects db) -> project_id p <> pid) ->
                  exists msg,
                    run_matching [] db np_std pid cids fo = Raise (ValueError msg)).
  { intro H. apply find_project_none in H. unfold run_matching. rewrite H.
    eexists. reflexivity. }
  split; [|split; [exact Hnone | exact Hrefused]].
  split.
  - intros (e & H & He).
    destruct (find (fun p => N.eqb (project_id p) pid) (projects db)) as [p|] eqn:Ep.
    + right. exists p. unfold run_matching in H. rewrite Ep in H.
      destruct (matching_loop [] db p fo (selected_candidates db cids) [])
        as [res|e'] eqn:El; simpl in H; [discriminate|].
      injection H as ->.
      apply matching_loop_raises in El. destruct El as (c & Hin & Hc).
      destruct (calculate_match_ValueError _ _ _ _ _ _ _ Hc He) as [Hfo Hcfg].
      split; [reflexivity|]. split; [|split; assumption].
      intro E. rewrite E in Hin. exact Hin.
    + left. apply find_project_none, Ep.
  - intros [H|(p & Hp & Hsel & Hfo & Hcfg)].
    + destruct (Hnone H) as (msg & Hmsg).
      exists (ValueError msg). split; [exact Hmsg | reflexivity].
    + eexists. split; [apply (Hrefused p); assumption | reflexivity].
Qed.

(** The module as it is written: an identifier that no project has, and a
    project whose stored fairness configuration is refused. *)
Lemma run_matching_ValueError_cases_witness :
  (exists msg,
      run_matching [] Scenario.seed_db Scenario.std_6dp 7%N None None
      = Raise (ValueError msg))
  /\ run_matching [] Scenario.refused_db Scenario.std_6dp 103%N None None
     = Raise (ValidationError "FairnessConfig").
Proof.
  split.
  - apply (run_matching_ValueError_cases Scenario.seed_db Scenario.std_6dp
             7%N None None).
    intros p [<-|[]]. discriminate.
  - apply (run_matching_ValueError_cases Scenario.refused_db Scenario.std_6dp
             103%N None None) with (p := Scenario.refused_project).
    + reflexivity.
    + discriminate.
    + reflexivity.
    + reflexivity.
Defined.

(** ** The gender parity ratio *)

Lemma group_scores_invariant attr (P : Q -> Prop) (results : list scored) :
  Forall (fun x : scored => P (mr_final_score (snd (fst x)))) results ->
  let groups := group_scores attr results in
  NoDup (map fst groups)
  /\ (forall k, In k (map fst groups)
                <-> exists x, In x results /\ attr (fst (fst x)) = Some k)
  /\ Forall (fun kv : string * list Q => Forall P (snd kv)) groups.
Proof.
  intro HP. unfold group_scores.
  set (step := fun (scores : dict (list Q)) (x : scored) => _).
  assert (Hgen : forall l acc,
            Forall (fun x : scored => P (mr_final_score (snd (fst x)))) l ->
            NoDup (map fst acc) ->
            Forall (fun kv : string * list Q => Forall P (snd kv)) acc ->
            NoDup (map fst (fold_left step l acc))
            /\ (forall k, In k (map fst (fold_left step l acc))
                          <-> In k (map fst acc)
                              \/ exists x, In x l /\ attr (fst (fst x)) = Some k)
            /\ Forall (fun kv : string * list Q => Forall P (snd kv))
                      (fold_left step l acc)).
  { induction l as [|[[c m] d] l IH]; intros acc Hl Hnd Hacc; cbn [fold_left].
    - split; [exact Hnd|]. split; [|exact Hacc].
      intro k. split; [tauto|]. intros [H|(x & [] & _)]. exact H.
    - inversion Hl as [|? ? Hx Hl']; subst. simpl in Hx.
      assert (Hstep : NoDup (map fst (step acc (c, m, d)))
                      /\ (forall k, In k (map fst (step acc (c, m, d)))
                                    <-> In k (map fst acc) \/ attr c = Some k)
                      /\ Forall (fun kv : string * list Q => Forall P (snd kv))
                                (step acc (c, m, d))).
      { unfold step. cbv beta iota. destruct (attr c) as [v|] eqn:Ea.
        - split; [|split].
          + destruct (dict_get acc v); repeat apply dict_set_NoDup; exact Hnd.
          + intro k. destruct (dict_get acc v);
              rewrite ?dict_set_keys_In; intuition congruence.
          + match goal with
            | |- context [dict_set ?a v (_ ++ _)%list] => set (acc' := a)
            end.
            assert (Hacc' : Forall (fun kv : string * list Q => Forall P (snd kv)) acc').
            { subst acc'. destruct (dict_get acc v); [exact Hacc|].
              apply dict_set_Forall; [intros; constructor | exact Hacc]. }
            clearbody acc'.
            apply dict_set_Forall; [|exact Hacc'].
            intros k'. simpl. apply Forall_app. split; [|repeat constructor; exact Hx].
            destruct (dict_get acc' v) as [l0|] eqn:Eg; [|constructor].
            apply dict_get_In in Eg. rewrite Forall_forall in Hacc'.
            apply (Hacc' _ Eg).
        - split; [exact Hnd|]. split; [|exact Hacc].
          intro k. split; [tauto|]. intros [H|H]; [exact H | discriminate]. }
      destruct Hstep as (S1 & S2 & S3).
      destruct (IH _ Hl' S1 S3) as (I1 & I2 & I3).
      split; [exact I1|]. split; [|exact I3].
      intro k. rewrite I2, S2. split.
      + intros [[H|H]|(x & Hin & Hx')].
        * left. exact H.
        * right. exists (c, m, d). split; [left; reflexivity | exact H].
        * right. exists x. split; [right; exact Hin | exact Hx'].
      + intros [H|(x & [<-|Hin] & Hx')].
        * left. left. exact H.
        * left. right. exact Hx'.
        * right. exists x. split; assumption. }
  destruct (Hgen results [] HP (NoDup_nil _) (Forall_nil _)) as (I1 & I2 & I3).
  split; [exact I1|]. split; [|exact I3].
  intro k. rewrite I2. split; [intros [[]|H]; exact H | intro H; right; exact H].
Qed.

Lemma Qsum_nonneg (l : list Q) : Forall (fun x => 0 <= x) l -> 0 <= Qsum l.
Proof.
  induction 1 as [|x l Hx _ IH]; simpl; [apply Qle_refl|].
  set (s := Qsum l) in *. clearbody s. lra.
Qed.

Lemma np_mean_nonneg (l : list Q) : Forall (fun x => 0 <= x) l -> 0 <= np_mean l.
Proof.
  intro H. unfold np_mean. apply Qsum_nonneg in H.
  unfold Qdiv. apply Qmult_le_0_compat; [exact H|].
  apply Qinv_le_0_compat. change 0 with (inject_Z 0). rewrite <- Zle_Qle. lia.
Qed.

Lemma list_min_bounds (x : Q) (l : list Q) :
  Forall (fun y => 0 <= y) (x :: l) ->
  0 <= list_min (x :: l) /\ list_min (x :: l) <= x.
Proof.
  intro H. inversion H as [|? ? Hx Hl]; subst. simpl.
  assert (Hgen : forall l m, Forall (fun y => 0 <= y) l -> 0 <= m ->
            0 <= fold_left (fun m y => if Qltb y m then y else m) l m
            /\ fold_left (fun m y => if Qltb y m then y else m) l m <= m).
  { clear. induction l as [|y l IH]; intros m Hl Hm; simpl.
    - split; [exact Hm | apply Qle_refl].
    - inversion Hl as [|? ? Hy Hl']; subst.
      destruct (Qltb y m) eqn:E.
      + apply Qltb_lt in E. destruct (IH y Hl' Hy) as [I1 I2].
        split; [exact I1|]. eapply Qle_trans; [exact I2 | apply Qlt_le_weak, E].
      + apply IH; assumption. }
  apply Hgen; assumption.
Qed.

Lemma list_max_lower (x : Q) (l : list Q) : x <= list_max (x :: l).
Proof.
  simpl. revert x. induction l as [|y l IH]; intro x; simpl; [apply Qle_refl|].
  destruct (Qltb x y) eqn:E.
  - apply Qltb_lt in E. eapply Qle_trans; [apply Qlt_le_weak, E | apply IH].
  - apply IH.
Qed.

(** The value [round(min_avg / max_avg, 3) if max_avg > 0 else 1.0] of
    non-negative averages. *)
Lemma parity_ratio_bounds (avgs : list Q) :
  avgs <> [] -> Forall (fun y => 0 <= y) avgs ->
  let v := if Qgtb (list_max avgs) 0
           then round (list_min avgs / list_max avgs) 3 else 1 in
  0 <= v /\ v <= 1.
Proof.
  intros Hne H v. subst v. destruct avgs as [|x l]; [contradiction|].
  destruct (list_min_bounds x l H) as [H0 Hx].
  pose proof (list_max_lower x l) as Hmax.
  destruct (Qgtb _ 0) eqn:E; [|split; discriminate].
  apply Qgtb_lt in E.
  set (mn := list_min (x :: l)) in *. set (mx := list_max (x :: l)) in *.
  clearbody mn mx. split.
  - apply (round_lower 0). change (inject_Z 0) with 0.
    apply Qle_shift_div_l; [exact E|]. clear - H0. lra.
  - apply (round_upper 1). change (inject_Z 1) with 1.
    apply Qle_shift_div_r; [exact E|]. clear - Hx Hmax. lra.
Qed.

Lemma NoDup_two_distinct {A : Type} (l : list A) :
  NoDup l ->
  ((1 < List.length l)%nat <-> exists a b, In a l /\ In b l /\ a <> b).
Proof.
  intro Hnd. split.
  - destruct l as [|a [|b l]]; simpl; try lia. intros _.
    exists a, b. repeat split; [left; reflexivity | right; left; reflexivity|].
    inversion Hnd as [|? ? Hnotin _]; subst. intros ->. apply Hnotin. left. reflexivity.
  - intros (a & b & Ha & Hb & Hab).
    destruct l as [|x [|y l]]; simpl in *; try lia; try contradiction.
    destruct Ha as [<-|[]], Hb as [<-|[]]. contradiction.
Qed.

Lemma Gender_value_injective g1 g2 : Gender_value g1 = Gender_value g2 -> g1 = g2.
Proof. destruct g1, g2; simpl; intro H; try reflexivity; discriminate H. Qed.

(** The metrics of a run have a [gender_parity_ratio] exactly when two of its
    candidates state different genders; when no final score is negative, the
    ratio is between 0 and 1. The metrics are empty only for an empty run. *)
Theorem gender_parity_ratio_between_0_and_1 np_std (results : list scored) :
  let metrics := _calculate_fairness_metrics np_std results in
  (metrics = [] <-> results = [])
  /\ ((exists v, dict_get metrics "gender_parity_ratio" = Some v)
      <-> exists x y g1 g2,
            In x results /\ In y results
            /\ gender (fst (fst x)) = Some g1 /\ gender (fst (fst y)) = Some g2
            /\ g1 <> g2)
  /\ (Forall (fun x : scored => 0 <= mr_final_score (snd (fst x))) results ->
      forall v, dict_get metrics "gender_parity_ratio" = Some v -> 0 <= v /\ v <= 1).
Proof.
  intro metrics. subst metrics. unfold _calculate_fairness_metrics.
  destruct results as [|x0 rest].
  { split; [tauto|]. split.
    - split; [intros (v & H); discriminate|]. intros (x & _ & _ & _ & [] & _).
    - intros _ v H. discriminate. }
  set (results := x0 :: rest).
  set (attr := fun c : Candidate => option_map Gender_value (gender c)).
  remember (group_scores attr results) as groups eqn:Egroups.
  set (avgs := dict_values (map (fun gs : string * list Q => (fst gs, np_mean (snd gs)))
                                groups)).
  set (mg := match groups with [] => [] | _ :: _ => _ end).
  assert (Hget : forall ms v0,
            dict_get (dict_set
                        match group_scores
                                (fun c => option_map SocioeconomicStatus_value
                                            (socioeconomic_status c)) results with
                        | [] => mg
                        | _ :: _ => dict_set mg "socioeconomic_parity" ms
                        end "overall_fairness_score" v0) "gender_parity_ratio"
            = dict_get mg "gender_parity_ratio").
  { intros ms v0.
    rewrite (dict_get_set_other _ "overall_fairness_score" "gender_parity_ratio")
      by (intro E; discriminate E).
    destruct (group_scores
                (fun c => option_map SocioeconomicStatus_value (socioeconomic_status c))
                results); [reflexivity|].
    apply dict_get_set_other. intro E; discriminate E. }
  split; [|split].
  - split; [|discriminate]. intro H. exfalso. revert H. apply dict_set_not_nil.
  - rewrite Hget.
    destruct (group_scores_invariant attr (fun _ => True) results) as (Hnd & Hkeys & _).
    { apply Forall_forall. intros; exact I. }
    rewrite <- Egroups in Hnd, Hkeys.
    assert (Hmg : (exists v, dict_get mg "gender_parity_ratio" = Some v)
                  <-> (1 < List.length (map fst groups))%nat).
    { subst mg. rewrite length_map. destruct groups as [|g gs].
      - simpl. split; [intros (v & H); discriminate | lia].
      - rewrite length_map. destruct (Nat.ltb 1 (List.length (g :: gs))) eqn:E.
        + apply Nat.ltb_lt in E. split; [intros _; exact E|].
          intros _. eexists. apply dict_get_set_same.
        + apply Nat.ltb_ge in E. split; [intros (v & H); discriminate | lia]. }
    rewrite Hmg, (NoDup_two_distinct _ Hnd). split.
    + intros (a & b & Ha & Hb & Hab).
      apply Hkeys in Ha, Hb.
      destruct Ha as (x & Hx & Hax), Hb as (y & Hy & Hby).
      unfold attr in Hax, Hby.
      destruct (gender (fst (fst x))) as [g1|] eqn:E1; [|discriminate].
      destruct (gender (fst (fst y))) as [g2|] eqn:E2; [|discriminate].
      exists x, y, g1, g2. repeat split; try assumption.
      intros ->. simpl in Hax, Hby. congruence.
    + intros (x & y & g1 & g2 & Hx & Hy & E1 & E2 & Hne).
      exists (Gender_value g1), (Gender_value g2). split; [|split].
      * apply Hkeys. exists x. split; [exact Hx|]. unfold attr. rewrite E1. reflexivity.
      * apply Hkeys. exists y. split; [exact Hy|]. unfold attr. rewrite E2. reflexivity.
      * intro E. apply Hne, Gender_value_injective, E.
  - intros Hpos v. rewrite Hget. intro Hv.
    destruct (group_scores_invariant attr (fun q => 0 <= q) results Hpos)
      as (_ & _ & Hvals).
    rewrite <- Egroups in Hvals.
    assert (Havgs : Forall (fun y => 0 <= y) avgs).
    { subst avgs. unfold dict_values. rewrite map_map. simpl.
      rewrite Forall_map. eapply Forall_impl; [|exact Hvals].
      intros kv Hkv. apply np_mean_nonneg, Hkv. }
    subst mg. clear Egroups Hget Hvals. destruct groups as [|g gs]; [discriminate|].
    destruct (Nat.ltb 1 _); [|discriminate].
    rewrite dict_get_set_same in Hv. injection Hv as <-.
    apply (parity_ratio_bounds avgs); [|exact Havgs].
    subst avgs. discriminate.
Qed.

(** Two gender groups, of averages 80 and 40. *)
Lemma gender_parity_ratio_between_0_and_1_witness :
  let metrics :=
    _calculate_fairness_metrics Scenario.std_6dp
      (map (scored_of Scenario.project)
         [(Scenario.maria, Scenario.data_with_final 80);
          (Scenario.james, Scenario.data_with_final 40)]) in
  dict_get metrics "gender_parity_ratio" = Some (1 # 2)
  /\ 0 <= 1 # 2 /\ 1 # 2 <= 1.
Proof.
  split; [reflexivity|].
  apply (gender_parity_ratio_between_0_and_1 Scenario.std_6dp
           (map (scored_of Scenario.project)
              [(Scenario.maria, Scenario.data_with_final 80);
               (Scenario.james, Scenario.data_with_final 40)])).
  - repeat constructor; simpl; discriminate.
  - reflexivity.
Defined.
